(** * UX-Evaluator front end: result aggregation and annotation mapping

    A shallow embedding of the parts of the React front end that compute
    something: the severity classifier and the severity sort of
    [AIEvaluationResults], its pie-chart counts and tooltip percentage, the
    bar widths of [ReportView], the coordinate projection of
    [ImageAnnotator], and the effect of [AIEvaluationResults] that fetches
    the results and wraps the screenshot in an object URL.

    Conventions.
    - A JavaScript [number] is an IEEE 754 binary64: [float], the kernel's
      primitive floats, with [PrimFloat]'s operations.  Array lengths and
      the ranks of [severityOrder] are small integers, on which binary64
      arithmetic is exact: they are [nat] and [Z], and a comparator result
      is [option Z] with [None] for NaN.
    - A JavaScript string is a [string]; [toLowerCase] is the ASCII one.
      Outside ASCII, no character has a lower-case form made of the letters
      of the keys looked up here, so the classification of a label is the
      one of its ASCII model.
    - React state is a record; an effect, an event handler or the
      continuation of an awaited promise is a transition on it. *)

From Stdlib Require Import List String Ascii Bool Arith ZArith Lia Sorted.
From Stdlib Require Import Permutation.
From Stdlib Require Import Floats.
Import ListNotations.
Local Open Scope string_scope.

(* ================================================================== *)
(** ** JavaScript strings and values *)

Module JS.

(** [String.prototype.toLowerCase] on one ASCII character. *)
Definition lower_ascii (c : ascii) : ascii :=
  let n := nat_of_ascii c in
  if ((65 <=? n)%nat && (n <=? 90)%nat)%bool then ascii_of_nat (n + 32)
  else c.

(** [String.prototype.toLowerCase]. *)
Fixpoint toLowerCase (s : string) : string :=
  match s with
  | EmptyString => EmptyString
  | String c s' => String (lower_ascii c) (toLowerCase s')
  end.

(** The values a property read of [severityOrder] can give: [undefined], a
    number, or an object (a function or [Object.prototype]) named by the
    property it was read from. *)
Inductive value : Type :=
| VUndefined
| VNumber (n : Z)
| VObject (name : string).

Definition value_eqb (v w : value) : bool :=
  match v, w with
  | VUndefined, VUndefined => true
  | VNumber n, VNumber m => Z.eqb n m
  | VObject a, VObject b => String.eqb a b
  | _, _ => false
  end.

(** [ToBoolean]: [undefined] and [0] are falsy, objects are truthy. *)
Definition truthy (v : value) : bool :=
  match v with
  | VUndefined => false
  | VNumber n => negb (Z.eqb n 0)
  | VObject _ => true
  end.

(** [v || d]. *)
Definition or_else (v d : value) : value := if truthy v then v else d.

(** [ToNumber]: [None] is NaN.  A function and [Object.prototype] convert
    through their string form, which is not a numeral. *)
Definition ToNumber (v : value) : option Z :=
  match v with
  | VNumber n => Some n
  | VUndefined | VObject _ => None
  end.

(** [v - w]. *)
Definition sub (v w : value) : option Z :=
  match ToNumber v, ToNumber w with
  | Some a, Some b => Some (a - b)%Z
  | _, _ => None
  end.

(** The own properties of [Object.prototype], which every object literal
    inherits. *)
Definition Object_prototype : list string :=
  [ "constructor"; "__defineGetter__"; "__defineSetter__"; "hasOwnProperty";
    "__lookupGetter__"; "__lookupSetter__"; "isPrototypeOf";
    "propertyIsEnumerable"; "toString"; "valueOf"; "__proto__";
    "toLocaleString" ].

Fixpoint own (o : list (string * Z)) (k : string) : option Z :=
  match o with
  | [] => None
  | (k', n) :: o' => if String.eqb k k' then Some n else own o' k
  end.

(** [o[k]] for an object literal [o] with number-valued properties: the own
    property, else the one inherited from [Object.prototype], else
    [undefined]. *)
Definition get (o : list (string * Z)) (k : string) : value :=
  match own o k with
  | Some n => VNumber n
  | None =>
      if existsb (String.eqb k) Object_prototype then VObject k
      else VUndefined
  end.

(** [Array.prototype.sort(comparefn)].  The comparator's result goes
    through [SortCompare], which reads NaN as [+0]; the sort is stable.
    Each element, from the last to the first, is put in front of the first
    element of the sorted rest that it does not compare greater than.

    For a consistent comparator the sorted list is determined, and this is
    it.  For a comparator that is not consistent on the elements of the
    list, ECMAScript leaves the order to the engine: the list given here is
    then one of the orders an engine may give, not the one of every
    engine; [V8_sort] below gives the order of another. *)
Section Sort.
Context {A : Type} (comparefn : A -> A -> option Z).

Definition SortCompare (x y : A) : Z :=
  match comparefn x y with
  | Some v => v
  | None => 0%Z
  end.

Fixpoint insert (x : A) (l : list A) : list A :=
  match l with
  | [] => [x]
  | y :: l' =>
      if (0 <? SortCompare x y)%Z then y :: insert x l' else x :: l
  end.

Definition sort (l : list A) : list A := fold_right insert [] l.

End Sort.

(** What V8 does with an array of fewer than 64 elements (its
    [builtins/array-sort.tq]).  [CountAndMakeRun] measures the run that the
    array starts with, and reverses it if it descends; [BinaryInsertionSort]
    then puts each element that follows where a binary search of what
    precedes it ends. *)
Section V8.
Context {A : Type} (comparefn : A -> A -> option Z).

(** The loop of [CountAndMakeRun]: by how many elements of [l] the run
    that ends with [previousElement] goes on. *)
Fixpoint countRun (isDescending : bool) (previousElement : A) (l : list A)
  : nat :=
  match l with
  | [] => 0
  | currentElement :: l' =>
      let order := SortCompare comparefn currentElement previousElement in
      if (if isDescending then 0 <=? order else order <? 0)%Z then 0
      else S (countRun isDescending currentElement l')
  end.

(** The run, ascending, and what follows it. *)
Definition CountAndMakeRun (l : list A) : list A * list A :=
  match l with
  | elementHigh :: elementLow :: l' =>
      let isDescending :=
        (SortCompare comparefn elementLow elementHigh <? 0)%Z in
      let runLength := 2 + countRun isDescending elementLow l' in
      ((if isDescending then rev (firstn runLength l)
        else firstn runLength l),
       skipn runLength l)
  | _ => (l, [])
  end.

(** The binary search of [BinaryInsertionSort], which ends in at most
    [fuel] steps for [fuel] the number of elements searched. *)
Fixpoint search (fuel : nat) (pivot : A) (a : list A) (left right : nat)
  : nat :=
  match fuel with
  | O => left
  | S fuel' =>
      if (left <? right)%nat then
        let mid := left + Nat.div2 (right - left) in
        match nth_error a mid with
        | Some v =>
            if (SortCompare comparefn pivot v <? 0)%Z
            then search fuel' pivot a left mid
            else search fuel' pivot a (S mid) right
        | None => left
        end
      else left
  end.

Definition BinaryInsertionSort (run rest : list A) : list A :=
  fold_left
    (fun a pivot =>
       let left := search (List.length a) pivot a 0 (List.length a) in
       (firstn left a ++ pivot :: skipn left a)%list)
    rest run.

Definition V8_sort (l : list A) : list A :=
  BinaryInsertionSort (fst (CountAndMakeRun l)) (snd (CountAndMakeRun l)).

End V8.

End JS.

(* ================================================================== *)
(** ** services/api/types.ts *)

Record Coordinates : Type := mkCoordinates { x : float; y : float }.

Record AnalysisResultItem : Type := mkAnalysisResultItem {
  top_left_coordinates : Coordinates;
  top_right_coordinates : Coordinates;
  bottom_right_coordinates : Coordinates;
  bottom_left_coordinates : Coordinates;
  heuristic : string;
  description : string;
  severity : string;
  recommendation : string
}.

Record PageAnalysisResult : Type := mkPageAnalysisResult {
  page_analysis_results : list AnalysisResultItem
}.

Record EvaluationResultAI : Type := mkEvaluationResultAI {
  evaluation_id : string;
  status : string;
  message : string;
  pages_analyzed : nat;
  issues_found : nat;
  analysis_results : list PageAnalysisResult
}.

(** [n] as a JavaScript number, for an array length or a count. *)
Definition number_of_nat (n : nat) : float :=
  PrimFloat.of_uint63 (Uint63.of_Z (Z.of_nat n)).

(* ================================================================== *)
(** ** components/AIEvaluationResults *)

Module AIEvaluationResults.

(** An element of [allIssues]: the item, spread, with [type] added. *)
Record Issue : Type := mkIssue {
  item :> AnalysisResultItem;
  type : string
}.

Definition getSeverityClass (severity : string) : string :=
  let s := JS.toLowerCase severity in
  if String.eqb s "critical" then "error"
  else if String.eqb s "high" then "error"
  else if String.eqb s "medium" then "warning"
  else if String.eqb s "low" then "success"
  else "".

(** [results.analysis_results.flatMap(page => page.analysis_results.map(...))] *)
Definition allIssues (results : EvaluationResultAI) : list Issue :=
  flat_map
    (fun page =>
       map (fun issue => mkIssue issue (heuristic issue))
           (page_analysis_results page))
    (analysis_results results).

Definition severityOrder : list (string * Z) :=
  [ ("critical", 0%Z); ("high", 1%Z); ("medium", 2%Z); ("low", 3%Z) ].

(** [severityOrder[s.toLowerCase()] || 4] *)
Definition severityRank (s : string) : JS.value :=
  JS.or_else (JS.get severityOrder (JS.toLowerCase s)) (JS.VNumber 4).

(** The comparator given to [sort]. *)
Definition compareSeverity (a b : Issue) : option Z :=
  JS.sub (severityRank (severity a)) (severityRank (severity b)).

(** [[...allIssues].sort((a, b) => ...)] *)
Definition sortedIssues (allIssues : list Issue) : list Issue :=
  JS.sort compareSeverity allIssues.

(** The number that the rank of an issue is, where it is one. *)
Definition rankNumber (i : Issue) : Z :=
  match severityRank (severity i) with
  | JS.VNumber n => n
  | _ => 4%Z
  end.

Definition hasRankNumber (i : Issue) : Prop :=
  exists n, severityRank (severity i) = JS.VNumber n.

(** The issues of rank [v], in the order of the list. *)
Definition ofRank (v : JS.value) (l : list Issue) : list Issue :=
  filter (fun i : Issue => JS.value_eqb (severityRank (severity i)) v) l.

(** The ["Issues Found"] statistic: [allIssues?.length || 0]. *)
Definition issuesFound (allIssues : list Issue) : nat := List.length allIssues.

(** [allIssues.filter(i => i.severity.toLowerCase() === label).length] *)
Definition countSeverity (label : string) (allIssues : list Issue) : nat :=
  List.length
    (filter (fun i : Issue => String.eqb (JS.toLowerCase (severity i)) label)
            allIssues).

(** The pie chart: [labels] and [datasets[0].data]. *)
Definition pieLabels : list string := [ "High"; "Medium"; "Low" ].

Definition pieData (allIssues : list Issue) : list nat :=
  [ countSeverity "high" allIssues;
    countSeverity "medium" allIssues;
    countSeverity "low" allIssues ].

(** The tooltip's [label] callback, up to [toFixed(1)], which prints NaN as
    ["NaN"]: [raw / data.reduce((a, b) => a + b, 0) * 100]. *)
Definition tooltipTotal (data : list float) : float :=
  fold_left PrimFloat.add data 0%float.

Definition tooltipPercentage (data : list float) (raw : float) : float :=
  (raw / tooltipTotal data * 100)%float.

(** The percentage the tooltip shows for the [i]th slice of the pie. *)
Definition slicePercentage (allIssues : list Issue) (i : nat) : float :=
  let data := map number_of_nat (pieData allIssues) in
  tooltipPercentage data (nth i data 0%float).

(** *** The effect that loads the results and the screenshot *)

(** The bytes of a screenshot, and the object URLs of the document, named
    by their creation number. *)
Definition Blob : Type := string.
Definition ObjectURL : Type := nat.

(** The document's object URL store: how many URLs [createObjectURL] has
    handed out, and the arguments of the calls of [revokeObjectURL]. *)
Record URLStore : Type := mkURLStore {
  created : nat;
  revoked : list ObjectURL
}.

Definition createObjectURL (u : URLStore) : ObjectURL * URLStore :=
  (created u, mkURLStore (S (created u)) (revoked u)).

Definition revokeObjectURL (url : ObjectURL) (u : URLStore) : URLStore :=
  mkURLStore (created u) (url :: revoked u).

(** The object URLs that still hold their blob. *)
Definition live (u : URLStore) : list ObjectURL :=
  filter (fun url => negb (existsb (Nat.eqb url) (revoked u)))
         (seq 0 (created u)).

Record Screenshot : Type := mkScreenshot {
  url : string;
  imageUrl_of : ObjectURL;
  timestamp : string
}.

(** The component's state that the effect reads or writes. *)
Record State : Type := mkState {
  results : option EvaluationResultAI;
  isLoading : bool;
  error : option string;
  screenshots : list Screenshot;
  imageUrl : option ObjectURL
}.

Definition initialState : State :=
  mkState None true None [] None.

(** The component, the document's URL store and the requests in flight,
    each named by the evaluation it asks for. *)
Record World : Type := mkWorld {
  mounted : bool;
  evaluationId : string;
  state : State;
  urls : URLStore;
  pending : list string
}.

Definition initialWorld : World :=
  mkWorld false "" initialState (mkURLStore 0 []) [].

(** What happens to the component.  [Fulfil] and [Reject] are the two
    outcomes of [Promise.all] for the request of an evaluation; a rejection
    carries [Some message] when the reason is an [Error]. *)
Inductive Event : Type :=
| Mount (id : string)
| Navigate (id : string)
| Fulfil (id : string) (data : EvaluationResultAI) (screenshotData : Blob)
| Reject (id : string) (err : option string)
| Unmount.

(** The effect's cleanup: [screenshots.forEach(s => revokeObjectURL(s.imageUrl))]. *)
Definition cleanup (w : World) : URLStore :=
  fold_left (fun u s => revokeObjectURL (imageUrl_of s) u)
            (screenshots (state w)) (urls w).

Fixpoint remove1 (id : string) (l : list string) : list string :=
  match l with
  | [] => []
  | k :: l' => if String.eqb id k then l' else k :: remove1 id l'
  end.

(** The state setters. *)
Definition setImageUrl (v : option ObjectURL) (s : State) : State :=
  mkState (results s) (isLoading s) (error s) (screenshots s) v.

Definition setResults (v : option EvaluationResultAI) (s : State) : State :=
  mkState v (isLoading s) (error s) (screenshots s) (imageUrl s).

Definition setError (v : option string) (s : State) : State :=
  mkState (results s) (isLoading s) v (screenshots s) (imageUrl s).

Definition setIsLoading (v : bool) (s : State) : State :=
  mkState (results s) v (error s) (screenshots s) (imageUrl s).

(** A state update does nothing once the component is unmounted. *)
Definition update (w : World) (f : State -> State) : State :=
  if mounted w then f (state w) else state w.

(** [err instanceof Error ? err.message : "Failed to load AI evaluation results"] *)
Definition errorMessage (err : option string) : string :=
  match err with
  | Some m => m
  | None => "Failed to load AI evaluation results"
  end.

Definition step (w : World) (e : Event) : World :=
  match e with
  | Mount id =>
      if mounted w then w
      else mkWorld true id initialState (urls w) (pending w ++ [id])
  | Navigate id =>
      if negb (mounted w) || String.eqb id (evaluationId w) then w
      else mkWorld true id (state w) (cleanup w) (pending w ++ [id])
  | Fulfil id data screenshotData =>
      if negb (existsb (String.eqb id) (pending w)) then w
      else
        let '(objectUrl, u) := createObjectURL (urls w) in
        mkWorld (mounted w) (evaluationId w)
                (update w (fun s =>
                   setIsLoading false
                     (setResults (Some data)
                        (setImageUrl (Some objectUrl) s))))
                u (remove1 id (pending w))
  | Reject id err =>
      if negb (existsb (String.eqb id) (pending w)) then w
      else
        mkWorld (mounted w) (evaluationId w)
                (update w (fun s =>
                   setIsLoading false (setError (Some (errorMessage err)) s)))
                (urls w) (remove1 id (pending w))
  | Unmount =>
      if mounted w
      then mkWorld false (evaluationId w) (state w) (cleanup w) (pending w)
      else w
  end.

Definition run (es : list Event) : World := fold_left step es initialWorld.

End AIEvaluationResults.

(* ================================================================== *)
(** ** components/ReportView *)

Module ReportView.

(** [report.summary], as far as the breakdown bars read it.  A
    [Record<string, number>] is listed in the order of [Object.entries]. *)
Record Summary : Type := mkSummary {
  total_pages : float;
  total_issues : float;
  severity_breakdown : list (string * float);
  category_breakdown : list (string * float)
}.

(** The number in the [width] style of a bar: [(count / total_issues) * 100]. *)
Definition barWidth (total_issues count : float) : float :=
  (count / total_issues * 100)%float.

(** [Object.entries(breakdown).map(([key, count]) => ...)]: one bar per
    entry, with its key, width and count. *)
Definition bars (total_issues : float) (breakdown : list (string * float))
  : list (string * float * float) :=
  map (fun '(key, count) => (key, barWidth total_issues count, count))
      breakdown.

Definition severityBars (s : Summary) : list (string * float * float) :=
  bars (total_issues s) (severity_breakdown s).

Definition categoryBars (s : Summary) : list (string * float * float) :=
  bars (total_issues s) (category_breakdown s).

End ReportView.

(* ================================================================== *)
(** ** components/ImageAnnotator *)

Module ImageAnnotator.

Record Annotation : Type := mkAnnotation {
  top_left : Coordinates;
  top_right : Coordinates;
  bottom_right : Coordinates;
  bottom_left : Coordinates;
  label : option string
}.

(** The [style] of an [annotation-box], in pixels, and its label. *)
Record Box : Type := mkBox {
  left : float;
  top : float;
  width : float;
  height : float;
  box_label : option string
}.

(** The component's state: [scale], and the images that calls of
    [updateScale] have created and that have not loaded yet, each with the
    [containerWidth] that its [onload] handler closes over. *)
Record State : Type := mkState {
  scale : float;
  loading : list float
}.

(** [useState(1)] *)
Definition initialState : State := mkState 1 [].

(** The argument of [setScale] in [img.onload]. *)
Definition computeScale (containerWidth naturalWidth : float) : float :=
  (containerWidth / naturalWidth)%float.

(** [containerRef.current], as [updateScale] reads it: the [clientWidth]
    of the element, if there is one.  [useRef(null)] makes it [null], and
    the component gives the ref to no element, so it stays [null]. *)
Definition containerRef : option float := None.

(** What happens to the component.  [UpdateScale] is a call of
    [updateScale], after the first render and on each resize of the
    window; [Onload] is the load of the [n]th image in flight, whose
    natural width is known from then on. *)
Inductive Event : Type :=
| UpdateScale
| Onload (n : nat) (naturalWidth : float).

Fixpoint remove_nth (n : nat) (l : list float) : list float :=
  match n, l with
  | _, [] => []
  | O, _ :: l' => l'
  | S n', w :: l' => w :: remove_nth n' l'
  end.

(** [updateScale]: with an element in the ref, an image is created whose
    [onload] handler keeps the width of the element; without, nothing. *)
Definition updateScale (s : State) : State :=
  match containerRef with
  | Some containerWidth => mkState (scale s) (loading s ++ [containerWidth])
  | None => s
  end.

Definition step (s : State) (e : Event) : State :=
  match e with
  | UpdateScale => updateScale s
  | Onload n naturalWidth =>
      match nth_error (loading s) n with
      | Some containerWidth =>
          mkState (computeScale containerWidth naturalWidth)
                  (remove_nth n (loading s))
      | None => s
      end
  end.

Definition run (es : list Event) : State := fold_left step es initialState.

(** The body of [annotations.map] in the component's render: the box's
    [left], [top], [width] and [height] are the source's [x], [y], [width]
    and [height]. *)
Definition project (scale : float) (annotation : Annotation) : Box :=
  mkBox (x (top_left annotation) * scale)%float
        (y (top_left annotation) * scale)%float
        ((x (top_right annotation) - x (top_left annotation)) * scale)%float
        ((y (bottom_left annotation) - y (top_left annotation)) * scale)%float
        (label annotation).

(** The boxes the component renders over the image. *)
Definition render (scale : float) (annotations : list Annotation) : list Box :=
  map (project scale) annotations.

(** The annotation [AIEvaluationResults] passes for an issue. *)
Definition annotationOf (issue : AnalysisResultItem) : Annotation :=
  mkAnnotation (top_left_coordinates issue) (top_right_coordinates issue)
               (bottom_right_coordinates issue) (bottom_left_coordinates issue)
               (Some (heuristic issue)).

End ImageAnnotator.

(* ================================================================== *)
(** ** Sample data *)

Module Sample.

Definition origin : Coordinates := mkCoordinates 0 0.

(** An item with the given severity label, and the issue made of it. *)
Definition itemLabelled (severity : string) : AnalysisResultItem :=
  mkAnalysisResultItem origin origin origin origin
                       "Visibility of system status" "" severity "".

Definition issueLabelled (severity : string)
  : AIEvaluationResults.Issue :=
  AIEvaluationResults.mkIssue (itemLabelled severity)
                              (heuristic (itemLabelled severity)).

(** The results of an evaluation [id] whose pages hold items with the
    given labels. *)
Definition resultsOf (id : string) (pages : list (list string))
  : EvaluationResultAI :=
  mkEvaluationResultAI id "completed" "" (List.length pages)
    (list_sum (map (@List.length string) pages))
    (map (fun labels => mkPageAnalysisResult (map itemLabelled labels)) pages).

(** The results of the evaluation A: two pages of two issues, all labelled
    high, medium or low.  The results of the evaluation B: a page with an
    issue labelled otherwise. *)
Definition fourIssues : EvaluationResultAI :=
  resultsOf "eval-A" [["High"; "low"]; ["MEDIUM"; "high"]].

Definition infoAndHigh : EvaluationResultAI :=
  resultsOf "eval-B" [["Info"; "high"]].

(** Seven issues, one of them labelled [constructor]. *)
Definition withConstructor : list AIEvaluationResults.Issue :=
  map issueLabelled
      ["high"; "high"; "medium"; "high"; "constructor"; "high"; "high"].

(** The same seven, each with its place in the list as its description. *)
Definition issueNumbered (severity description : string)
  : AIEvaluationResults.Issue :=
  AIEvaluationResults.mkIssue
    (mkAnalysisResultItem origin origin origin origin
                          "Visibility of system status" description
                          severity "")
    "Visibility of system status".

Definition numbered : list AIEvaluationResults.Issue :=
  [issueNumbered "high" "0"; issueNumbered "high" "1";
   issueNumbered "medium" "2"; issueNumbered "high" "3";
   issueNumbered "constructor" "4"; issueNumbered "high" "5";
   issueNumbered "high" "6"].

(** The quadrilateral of the projection scenario, whose corners are
    (100,100), (300,100), (300,200) and (100,200); and one whose right edge
    is left of its left edge and whose bottom edge is above its top edge. *)
Definition scenarioQuad : ImageAnnotator.Annotation :=
  ImageAnnotator.mkAnnotation
    (mkCoordinates 100 100) (mkCoordinates 300 100)
    (mkCoordinates 300 200) (mkCoordinates 100 200) None.

Definition invertedQuad : ImageAnnotator.Annotation :=
  ImageAnnotator.mkAnnotation
    (mkCoordinates 1 1) (mkCoordinates 0 1)
    (mkCoordinates 0 0) (mkCoordinates 1 0) None.

End Sample.

(* ================================================================== *)
(** ** components/HeuristicsList *)

Module HeuristicsList.

Record Heuristic : Type := mkHeuristic {
  _id : string;
  name : string;
  description : string;
  category : string
}.

(** [Set.prototype.add] on a set of strings, kept in insertion order. *)
Definition Set_add (s : list string) (v : string) : list string :=
  if existsb (String.eqb v) s then s else s ++ [v].

(** [[...new Set(l)]] *)
Definition Set_from (l : list string) : list string :=
  fold_left Set_add l [].

Record State : Type := mkState {
  heuristics : list Heuristic;
  isLoading : bool;
  error : option string;
  activeCategory : option string
}.

Definition initialState : State := mkState [] true None None.

Definition getCategories (s : State) : list string :=
  Set_from (map category (heuristics s)).

Definition getHeuristicsByCategory (s : State) (c : string)
  : list Heuristic :=
  filter (fun h => String.eqb (category h) c) (heuristics s).

(** The continuation of [await getHeuristics()] in [fetchHeuristics]: the
    data, or the rejection, which carries [Some message] when the reason is
    an [Error]. *)
Definition fetchHeuristics (outcome : list Heuristic + option string)
           (s : State) : State :=
  match outcome with
  | inl data =>
      let s1 := mkState data (isLoading s) (error s) (activeCategory s) in
      let s2 :=
        match data with
        | [] => s1
        | _ :: _ =>
            match Set_from (map category data) with
            | [] => s1
            | c :: _ => mkState (heuristics s1) (isLoading s1) (error s1)
                                (Some c)
            end
        end in
      mkState (heuristics s2) false (error s2) (activeCategory s2)
  | inr err =>
      let msg := match err with
                 | Some m => m
                 | None => "Failed to load heuristics"
                 end in
      mkState (heuristics s) false (Some msg) (activeCategory s)
  end.

(** The click on a category of the sidebar. *)
Definition selectCategory (c : string) (s : State) : State :=
  mkState (heuristics s) (isLoading s) (error s) (Some c).

(** What the component renders.  The grid is there for a truthy
    [activeCategory], which the empty string is not. *)
Inductive View : Type :=
| Spinner
| ErrorMessage (message : string)
| NoHeuristics
| Categories (sidebar : list string) (active : option string)
             (grid : option (list Heuristic)).

(** [activeCategory && getHeuristicsByCategory(activeCategory)] *)
Definition grid (s : State) : option (list Heuristic) :=
  match activeCategory s with
  | Some (String c a) => Some (getHeuristicsByCategory s (String c a))
  | _ => None
  end.

Definition view (s : State) : View :=
  if isLoading s then Spinner
  else
    match error s with
    | Some (String c m) => ErrorMessage (String c m)
    | _ =>
        match heuristics s with
        | [] => NoHeuristics
        | _ :: _ => Categories (getCategories s) (activeCategory s) (grid s)
        end
    end.

(** The heuristics of a grid, none where no grid is rendered. *)
Definition gridItems (g : option (list Heuristic)) : list Heuristic :=
  match g with
  | Some l => l
  | None => []
  end.

End HeuristicsList.

(* ================================================================== *)
(** ** components/EvaluationForm *)

Module EvaluationForm.

(** [selectedHeuristics], and its update by [toggleHeuristic]. *)
Definition toggleHeuristic (id : string) (selectedHeuristics : list string)
  : list string :=
  if existsb (String.eqb id) selectedHeuristics
  then filter (fun h => negb (String.eqb h id)) selectedHeuristics
  else selectedHeuristics ++ [id].

(** The selection that the effect makes once the heuristics have loaded:
    [heuristics.map((h) => h._id)]. *)
Definition selectAll (heuristics : list HeuristicsList.Heuristic)
  : list string :=
  map HeuristicsList._id heuristics.

(** services/api: [EvaluationRequest], without its optional
    [custom_checks], which the form never sets. *)
Module Request.
Record t : Type := mk {
  url : string;
  max_pages : float;
  depth : float;
  heuristics : list string
}.
End Request.

Record State : Type := mkState {
  url : string;
  maxPages : float;
  depth : float;
  selectedHeuristics : list string;
  availableHeuristics : list HeuristicsList.Heuristic;
  isLoading : bool;
  error : option string
}.

Definition initialState : State := mkState "" 2 2 [] [] false None.

(** The form; whether its call of [getHeuristics] has yet to settle; its
    requests that have not settled, each with [useAI]; and the address
    that [onEvaluationComplete] has sent the window to, if it has. *)
Record World : Type := mkWorld {
  state : State;
  heuristicsPending : bool;
  requests : list (bool * Request.t);
  location : option string
}.

Definition initialWorld : World := mkWorld initialState true [] None.

(** The continuation of [await getHeuristics()] in the effect. *)
Definition fetchHeuristics
           (outcome : list HeuristicsList.Heuristic + unit) (s : State)
  : State :=
  match outcome with
  | inl heuristics =>
      mkState (url s) (maxPages s) (depth s) (selectAll heuristics)
              heuristics (isLoading s) (error s)
  | inr _ =>
      mkState (url s) (maxPages s) (depth s) (selectedHeuristics s)
              (availableHeuristics s) (isLoading s)
              (Some "Failed to load heuristics. Please try again.")
  end.

(** [handleSubmit], up to its [await]. *)
Definition handleSubmit (useAI : bool) (w : World) : World :=
  let s := state w in
  mkWorld (mkState (url s) (maxPages s) (depth s) (selectedHeuristics s)
                   (availableHeuristics s) true None)
          (heuristicsPending w)
          (requests w
           ++ [(useAI,
                Request.mk (url s) (maxPages s) (depth s)
                           (selectedHeuristics s))])
          (location w).

(** [onEvaluationComplete], as the routes define it. *)
Definition onEvaluationComplete (id : string) (useAI : bool) : string :=
  if useAI then "/ai-results/" ++ id else "/results/" ++ id.

(** [handleSubmit], from its [await] on: the response with its
    [evaluation_id], or a rejection, with [Some message] when the reason is
    an [Error]. *)
Definition submitSettled (useAI : bool) (outcome : string + option string)
           (w : World) : World :=
  let s := state w in
  match outcome with
  | inl evaluation_id =>
      mkWorld (mkState (url s) (maxPages s) (depth s) (selectedHeuristics s)
                       (availableHeuristics s) false (error s))
              (heuristicsPending w) (tl (requests w))
              (Some (onEvaluationComplete evaluation_id useAI))
  | inr err =>
      mkWorld (mkState (url s) (maxPages s) (depth s) (selectedHeuristics s)
                       (availableHeuristics s) false
                       (Some (match err with
                              | Some m => m
                              | None => "An unknown error occurred"
                              end)))
              (heuristicsPending w) (tl (requests w)) (location w)
  end.

(** What happens to the form: [getHeuristics] settles; a field changes,
    the number fields to what [parseInt] makes of the text; the form is
    submitted, which the disabled button prevents while [isLoading]; the
    oldest request settles.  Nothing happens once the window has left for
    another address. *)
Inductive Event : Type :=
| HeuristicsSettled (outcome : list HeuristicsList.Heuristic + unit)
| ChangeUrl (value : string)
| ChangeMaxPages (value : float)
| ChangeDepth (value : float)
| Submit (useAI : bool)
| SubmitSettled (outcome : string + option string).

Definition step (w : World) (e : Event) : World :=
  match location w with
  | Some _ => w
  | None =>
      let s := state w in
      match e with
      | HeuristicsSettled outcome =>
          if heuristicsPending w
          then mkWorld (fetchHeuristics outcome s) false (requests w)
                       (location w)
          else w
      | ChangeUrl value =>
          mkWorld (mkState value (maxPages s) (depth s)
                           (selectedHeuristics s) (availableHeuristics s)
                           (isLoading s) (error s))
                  (heuristicsPending w) (requests w) (location w)
      | ChangeMaxPages value =>
          mkWorld (mkState (url s) value (depth s)
                           (selectedHeuristics s) (availableHeuristics s)
                           (isLoading s) (error s))
                  (heuristicsPending w) (requests w) (location w)
      | ChangeDepth value =>
          mkWorld (mkState (url s) (maxPages s) value
                           (selectedHeuristics s) (availableHeuristics s)
                           (isLoading s) (error s))
                  (heuristicsPending w) (requests w) (location w)
      | Submit useAI => if isLoading s then w else handleSubmit useAI w
      | SubmitSettled outcome =>
          match requests w with
          | [] => w
          | (useAI, _) :: _ => submitSettled useAI outcome w
          end
      end
  end.

Definition run (es : list Event) : World := fold_left step es initialWorld.

End EvaluationForm.

(* ================================================================== *)
(** ** components/AIEvaluationResults: the page *)

Module ResultsPage.

Import AIEvaluationResults.

(** [array.map((v, index) => f v index)], counting from [index]. *)
Fixpoint mapi {A B : Type} (f : A -> nat -> B) (l : list A) (index : nat)
  : list B :=
  match l with
  | [] => []
  | v :: l' => f v index :: mapi f l' (S index)
  end.

(** The component with the rest of its state; [mounts], the number of
    times it has been mounted; the calls of [generateReportAI] that have
    not settled, each with the mount that made it and the evaluation it is
    for; and [sent], the number of calls made so far.  Nothing aborts a
    call: one made by a mount that is no more settles all the same, on
    setters that do nothing. *)
Record World : Type := mkWorld {
  core : AIEvaluationResults.World;
  isGeneratingReport : bool;
  reportGenerated : bool;
  isChatOpen : bool;
  selectedCardIndex : option nat;
  mounts : nat;
  reportRequests : list (nat * string);
  sent : nat
}.

Definition initialWorld : World :=
  mkWorld AIEvaluationResults.initialWorld false false false None 0 [] 0.

Definition withCore (c : AIEvaluationResults.World) (w : World) : World :=
  mkWorld c (isGeneratingReport w) (reportGenerated w) (isChatOpen w)
          (selectedCardIndex w) (mounts w) (reportRequests w) (sent w).

Definition withRequests (r : list (nat * string)) (w : World) : World :=
  mkWorld (core w) (isGeneratingReport w) (reportGenerated w) (isChatOpen w)
          (selectedCardIndex w) (mounts w) r (sent w).

(** The calls in flight that the present mount has made. *)
Definition ownRequests (w : World) : list (nat * string) :=
  filter (fun r => Nat.eqb (fst r) (mounts w)) (reportRequests w).

(** A list without its [n]th element. *)
Fixpoint removeAt {A : Type} (n : nat) (l : list A) : list A :=
  match n, l with
  | _, [] => []
  | O, _ :: l' => l'
  | S n', v :: l' => v :: removeAt n' l'
  end.

(** A state update of the component on the state of the effect. *)
Definition updateCore (f : State -> State) (w : World) : World :=
  withCore (AIEvaluationResults.mkWorld
              (mounted (core w)) (evaluationId (core w))
              (update (core w) f) (urls (core w)) (pending (core w)))
           w.

(** The button that generates the report. *)
Record Button : Type := mkButton {
  disabled : bool;
  text : string
}.

(** The card of an issue, which holds the annotated screenshot when the
    card is the selected one and the screenshot has a URL. *)
Record Card : Type := mkCard {
  issue : Issue;
  className : string;
  expanded : bool;
  annotator : option (ObjectURL * list ImageAnnotator.Annotation)
}.

Inductive View : Type :=
| Spinner
| ErrorMessage (message : string)
| NoResults
| Results (button : Button) (pagesAnalyzed : nat) (issuesFound : nat)
          (pie : list nat) (cards : list Card) (chat : bool).

Definition card (w : World) (issue : Issue) (index : nat) : Card :=
  let selected :=
    match selectedCardIndex w with
    | Some i => Nat.eqb i index
    | None => false
    end in
  mkCard issue (getSeverityClass (severity issue)) selected
         (match imageUrl (state (core w)) with
          | Some u =>
              if selected
              then Some (u, [ImageAnnotator.annotationOf issue])
              else None
          | None => None
          end).

Definition button (w : World) : Button :=
  mkButton (isGeneratingReport w || reportGenerated w)
           (if reportGenerated w then "AI Report Generated!"
            else if isGeneratingReport w then "Generating..."
            else "Generate AI Report").

(** What the component renders. *)
Definition view (w : World) : View :=
  let s := state (core w) in
  if isLoading s then Spinner
  else
    match error s with
    | Some (String c m) => ErrorMessage (String c m)
    | _ =>
        match results s with
        | None => NoResults
        | Some r =>
            Results (button w) (pages_analyzed r)
                    (issuesFound (allIssues r)) (pieData (allIssues r))
                    (mapi (card w) (sortedIssues (allIssues r)) 0)
                    (isChatOpen w)
        end
    end.

(** Whether the page with the button and the cards is what is rendered. *)
Definition showsResults (w : World) : bool :=
  match view w with
  | Results _ _ _ _ _ _ => true
  | _ => false
  end.

(** The cards rendered. *)
Definition cardsOf (v : View) : list Card :=
  match v with
  | Results _ _ _ _ cards _ => cards
  | _ => []
  end.

Definition handleCardClick (index : nat) (w : World) : World :=
  mkWorld (core w) (isGeneratingReport w) (reportGenerated w) (isChatOpen w)
          (match selectedCardIndex w with
           | Some i => if Nat.eqb i index then None else Some index
           | None => Some index
           end)
          (mounts w) (reportRequests w) (sent w).

(** [handleGenerateReport], up to its [await]. *)
Definition handleGenerateReport (w : World) : World :=
  let w1 := mkWorld (core w) true (reportGenerated w) (isChatOpen w)
                    (selectedCardIndex w) (mounts w) (reportRequests w)
                    (sent w) in
  let w2 := updateCore (setError None) w1 in
  mkWorld (core w2) (isGeneratingReport w2) (reportGenerated w2)
          (isChatOpen w2) (selectedCardIndex w2) (mounts w2)
          (reportRequests w2 ++ [(mounts w2, evaluationId (core w2))])
          (S (sent w2)).

(** [handleGenerateReport], from its [await] on: the report came, or the
    call was rejected, with [Some message] when the reason is an
    [Error]. *)
Definition reportSettled (outcome : unit + option string) (w : World)
  : World :=
  let w1 :=
    match outcome with
    | inl _ =>
        mkWorld (core w) (isGeneratingReport w) true (isChatOpen w)
                (selectedCardIndex w) (mounts w) (reportRequests w) (sent w)
    | inr err =>
        updateCore
          (setError (Some (match err with
                           | Some m => m
                           | None => "Failed to generate AI report"
                           end))) w
    end in
  mkWorld (core w1) false (reportGenerated w1) (isChatOpen w1)
          (selectedCardIndex w1) (mounts w1) (reportRequests w1) (sent w1).

(** What happens to the page: what happens to the effect, a click on the
    button, the outcome of the [n]th call of [generateReportAI] in flight,
    a click on a card, a click on the chat button.  A click needs its
    target to be rendered, and the button to be enabled.  The outcome of a
    call reaches the state of the mount that made the call, if it is still
    the mounted one. *)
Inductive Event : Type :=
| Load (e : AIEvaluationResults.Event)
| ClickGenerate
| ReportSettled (n : nat) (outcome : unit + option string)
| ClickCard (index : nat)
| ClickChat.

Definition step (w : World) (e : Event) : World :=
  match e with
  | Load (Mount id) =>
      if mounted (core w) then w
      else mkWorld (AIEvaluationResults.step (core w) (Mount id))
                   false false false None (S (mounts w)) (reportRequests w)
                   (sent w)
  | Load e' => withCore (AIEvaluationResults.step (core w) e') w
  | ClickGenerate =>
      if mounted (core w) && showsResults w && negb (disabled (button w))
      then handleGenerateReport w else w
  | ReportSettled n outcome =>
      match nth_error (reportRequests w) n with
      | None => w
      | Some (mount, _) =>
          let w' := withRequests (removeAt n (reportRequests w)) w in
          if mounted (core w) && Nat.eqb mount (mounts w)
          then reportSettled outcome w' else w'
      end
  | ClickCard index =>
      if mounted (core w) && (index <? List.length (cardsOf (view w)))%nat
      then handleCardClick index w
      else w
  | ClickChat =>
      if mounted (core w) && showsResults w
      then mkWorld (core w) (isGeneratingReport w) (reportGenerated w)
                   (negb (isChatOpen w)) (selectedCardIndex w) (mounts w)
                   (reportRequests w) (sent w)
      else w
  end.

Definition run (es : list Event) : World := fold_left step es initialWorld.

(** What holds of the calls in flight: none is of a mount to come; the
    present mount has at most one; and the mounted component has one
    exactly when it is generating, which it is only past its spinner. *)
Definition inFlight (w : World) : Prop :=
  Forall (fun r => (fst r <= mounts w)%nat) (reportRequests w) /\
  (List.length (ownRequests w) <= 1)%nat /\
  (mounted (core w) = true ->
   (ownRequests w <> [] -> isGeneratingReport w = true) /\
   (isGeneratingReport w = true ->
    ownRequests w <> [] /\
    isLoading (AIEvaluationResults.state (core w)) = false)).

End ResultsPage.

(* ================================================================== *)
(** ** components/ChatBot *)

Module ChatBot.

Inductive Sender : Type := user | bot.

(** A message; its [timestamp] is the time of the clock when it was
    made. *)
Record Message : Type := mkMessage {
  type : Sender;
  content : string;
  timestamp : nat
}.

Record State : Type := mkState {
  messages : list Message;
  input : string;
  isLoading : bool
}.

Definition initialState : State := mkState [] "" false.

(** A string holds its text in UTF-8.  The white space that [trim] strips
    is the [WhiteSpace] and the [LineTerminator] of ECMAScript.  In one
    byte: tab, line feed, vertical tab, form feed, carriage return and
    space. *)
Definition isWhiteSpace (c : ascii) : bool :=
  let n := nat_of_ascii c in
  ((9 <=? n)%nat && (n <=? 13)%nat)%bool || (n =? 32)%nat.

(** In two bytes: the no-break space U+00A0, which is C2 A0. *)
Definition isWhiteSpace2 (c c1 : ascii) : bool :=
  ((nat_of_ascii c =? 194)%nat && (nat_of_ascii c1 =? 160)%nat)%bool.

(** In three bytes: U+1680 (E1 9A 80); U+2000 to U+200A, the line and
    paragraph separators U+2028 and U+2029, and U+202F (E2 80 80 to 8A,
    A8, A9, AF); U+205F (E2 81 9F); U+3000 (E3 80 80); and the byte order
    mark U+FEFF (EF BB BF). *)
Definition isWhiteSpace3 (c c1 c2 : ascii) : bool :=
  let n := nat_of_ascii c in
  let n1 := nat_of_ascii c1 in
  let n2 := nat_of_ascii c2 in
  ((n =? 225)%nat && (n1 =? 154)%nat && (n2 =? 128)%nat)%bool
  || ((n =? 226)%nat && (n1 =? 128)%nat
      && (((128 <=? n2)%nat && (n2 <=? 138)%nat)%bool
          || (n2 =? 168)%nat || (n2 =? 169)%nat || (n2 =? 175)%nat))%bool
  || ((n =? 226)%nat && (n1 =? 129)%nat && (n2 =? 159)%nat)%bool
  || ((n =? 227)%nat && (n1 =? 128)%nat && (n2 =? 128)%nat)%bool
  || ((n =? 239)%nat && (n1 =? 187)%nat && (n2 =? 191)%nat)%bool.

(** [String.prototype.trimStart]: the string from its first character that
    is not white space on. *)
Fixpoint trimStart (s : string) : string :=
  match s with
  | EmptyString => EmptyString
  | String c s1 =>
      if isWhiteSpace c then trimStart s1
      else
        match s1 with
        | EmptyString => s
        | String c1 s2 =>
            if isWhiteSpace2 c c1 then trimStart s2
            else
              match s2 with
              | EmptyString => s
              | String c2 s3 =>
                  if isWhiteSpace3 c c1 c2 then trimStart s3 else s
              end
        end
  end.

(** Whether a string is made of white space only. *)
Fixpoint blank (s : string) : bool :=
  match s with
  | EmptyString => true
  | String c s1 =>
      if isWhiteSpace c then blank s1
      else
        match s1 with
        | EmptyString => false
        | String c1 s2 =>
            if isWhiteSpace2 c c1 then blank s2
            else
              match s2 with
              | EmptyString => false
              | String c2 s3 =>
                  if isWhiteSpace3 c c1 c2 then blank s3 else false
              end
        end
  end.

(** [String.prototype.trimEnd]: the string up to where what is left of it
    is white space only. *)
Fixpoint trimEnd (s : string) : string :=
  match s with
  | EmptyString => EmptyString
  | String c s' =>
      if blank s then EmptyString else String c (trimEnd s')
  end.

(** [String.prototype.trim] *)
Definition trim (s : string) : string := trimEnd (trimStart s).

(** The component and the bodies of its requests that have not settled. *)
Record World : Type := mkWorld {
  state : State;
  requests : list string
}.

Definition initialWorld : World := mkWorld initialState [].

(** [handleSubmit], up to its [await], at the time [now]. *)
Definition handleSubmit (now : nat) (w : World) : World :=
  let s := state w in
  match trim (input s) with
  | EmptyString => w
  | _ =>
      let userMessage := mkMessage user (input s) now in
      mkWorld (mkState (messages s ++ [userMessage]) "" true)
              (requests w ++ [input s])
  end.

(** [handleSubmit], from its [await] on.  The outcome is [inl reply] for a
    response that is [ok] and whose body has a [response] with [reply] as
    its [response], if any; it is [inr tt] for anything that throws. *)
Definition settled (now : nat) (outcome : option string + unit) (w : World)
  : World :=
  let s := state w in
  let botMessage :=
    match outcome with
    | inl (Some (String c r)) => mkMessage bot (String c r) now
    | inl _ => mkMessage bot "No response available" now
    | inr _ =>
        mkMessage bot
          "Sorry, I encountered an error while processing your request." now
    end in
  mkWorld (mkState (messages s ++ [botMessage]) (input s) false)
          (tl (requests w)).

(** What happens to the component: the text field changes, the form is
    submitted, the oldest request settles.  The text field and the button
    are disabled while [isLoading]. *)
Inductive Event : Type :=
| Change (value : string)
| Submit (now : nat)
| Settled (now : nat) (outcome : option string + unit).

Definition step (w : World) (e : Event) : World :=
  match e with
  | Change value =>
      if isLoading (state w) then w
      else mkWorld (mkState (messages (state w)) value false) (requests w)
  | Submit now => if isLoading (state w) then w else handleSubmit now w
  | Settled now outcome =>
      match requests w with
      | [] => w
      | _ :: _ => settled now outcome w
      end
  end.

Definition run (es : list Event) : World := fold_left step es initialWorld.

(** A space, a no-break space, a line feed and an ideographic space; and
    the same around a word. *)
Definition spaces : string :=
  String (ascii_of_nat 32)
    (String (ascii_of_nat 194) (String (ascii_of_nat 160)
       (String (ascii_of_nat 10)
          (String (ascii_of_nat 227) (String (ascii_of_nat 128)
             (String (ascii_of_nat 128) EmptyString)))))).

Definition padded : string := spaces ++ "why" ++ spaces.


End ChatBot.

(* ================================================================== *)
(** ** Sample runs *)

Module Scenario.

(** The page of the evaluation A, loaded; with the report being
    generated; with the report generated. *)
Definition opened : list ResultsPage.Event :=
  [ResultsPage.Load (AIEvaluationResults.Mount "eval-A");
   ResultsPage.Load
     (AIEvaluationResults.Fulfil "eval-A" Sample.fourIssues "A")].

Definition clicked : list ResultsPage.Event :=
  (opened ++ [ResultsPage.ClickGenerate])%list.

Definition loaded : ResultsPage.World := ResultsPage.run opened.

Definition generating : ResultsPage.World := ResultsPage.run clicked.

(** The list of heuristics, loaded: three heuristics, of which one has the
    empty string as its category. *)
Definition listed : HeuristicsList.State :=
  HeuristicsList.fetchHeuristics
    (inl [HeuristicsList.mkHeuristic "h1" "Visibility" "Show the status"
            "Nielsen";
          HeuristicsList.mkHeuristic "h2" "Unfiled" "No category" "";
          HeuristicsList.mkHeuristic "h3" "Labels" "Label each field"
            "Forms";
          HeuristicsList.mkHeuristic "h4" "Consistency" "Follow conventions"
            "Nielsen"])
    HeuristicsList.initialState.

(** The button clicked, the component unmounted before the call settles,
    then mounted and loaded again, and the button clicked again. *)
Definition remounted : list ResultsPage.Event :=
  (clicked ++ [ResultsPage.Load AIEvaluationResults.Unmount] ++ clicked)%list.

Definition generated : ResultsPage.World :=
  ResultsPage.step generating (ResultsPage.ReportSettled 0 (inl tt)).

(** The page whose call for a report was rejected; and what may then
    happen: the evaluation B is shown, and its load is rejected with an
    [Error] whose message is empty. *)
Definition failed : ResultsPage.World :=
  ResultsPage.step generating
    (ResultsPage.ReportSettled 0 (inr (Some "Not Found"))).

Definition rejectedB : list ResultsPage.Event :=
  [ResultsPage.Load (AIEvaluationResults.Navigate "eval-B");
   ResultsPage.Load (AIEvaluationResults.Reject "eval-B" (Some ""))].

(** What then happens: the evaluation B is shown and loads, and the button
    is clicked. *)
Definition thenB : list ResultsPage.Event :=
  [ResultsPage.Load (AIEvaluationResults.Navigate "eval-B");
   ResultsPage.Load
     (AIEvaluationResults.Fulfil "eval-B" Sample.infoAndHigh "B");
   ResultsPage.ClickGenerate].

End Scenario.

(* ================================================================== *)
(** * Properties *)

Import AIEvaluationResults.

(** ** The severity classifier *)

Section Classifier.

Lemma lower_ascii_idem (c : ascii) :
  JS.lower_ascii (JS.lower_ascii c) = JS.lower_ascii c.
Proof. destruct c as [[] [] [] [] [] [] [] []]; reflexivity. Qed.

Lemma toLowerCase_idem (s : string) :
  JS.toLowerCase (JS.toLowerCase s) = JS.toLowerCase s.
Proof.
  induction s as [|c s IH]; simpl; [reflexivity|].
  now rewrite lower_ascii_idem, IH.
Qed.

(** Both classifiers read their argument through [toLowerCase] only. *)
Lemma getSeverityClass_lower (s : string) :
  getSeverityClass (JS.toLowerCase s) = getSeverityClass s.
Proof. unfold getSeverityClass. now rewrite toLowerCase_idem. Qed.

Lemma severityRank_lower (s : string) :
  severityRank (JS.toLowerCase s) = severityRank s.
Proof. unfold severityRank. now rewrite toLowerCase_idem. Qed.

Lemma classify_case_insensitive (s t : string) :
  JS.toLowerCase s = JS.toLowerCase t ->
  getSeverityClass s = getSeverityClass t /\ severityRank s = severityRank t.
Proof.
  intros E. unfold getSeverityClass, severityRank. now rewrite E.
Qed.

Lemma classify_HIGH :
  getSeverityClass "HIGH" = "error" /\ getSeverityClass "high" = "error" /\
  getSeverityClass "High" = "error" /\
  severityRank "HIGH" = JS.VNumber 1 /\ severityRank "high" = JS.VNumber 1 /\
  severityRank "High" = JS.VNumber 1.
Proof. repeat split; reflexivity. Qed.

(** A label that is none of the four keys has no class. *)
Lemma getSeverityClass_other (s : string) :
  JS.toLowerCase s <> "critical" -> JS.toLowerCase s <> "high" ->
  JS.toLowerCase s <> "medium" -> JS.toLowerCase s <> "low" ->
  getSeverityClass s = "".
Proof.
  intros H1 H2 H3 H4. unfold getSeverityClass.
  apply String.eqb_neq in H1, H2, H3, H4.
  now rewrite H1, H2, H3, H4.
Qed.

(** A lower-cased string has no upper-case letter, so of the properties of
    [Object.prototype] only [constructor] and [__proto__] can be read. *)
Lemma inherited_lower (s : string) :
  existsb (String.eqb (JS.toLowerCase s)) JS.Object_prototype = true ->
  JS.toLowerCase s = "constructor" \/ JS.toLowerCase s = "__proto__".
Proof.
  intros H. apply existsb_exists in H. destruct H as [k [Hin Hk]].
  apply String.eqb_eq in Hk.
  assert (L : JS.toLowerCase k = k) by (rewrite <- Hk; apply toLowerCase_idem).
  simpl in Hin.
  repeat (destruct Hin as [<- | Hin]; [try discriminate L; auto|]).
  destruct Hin.
Qed.

(** The rank of a label is 1, 2, 3 or 4, or an inherited object. *)
Lemma severityRank_cases (s : string) :
  (JS.toLowerCase s = "critical" /\ severityRank s = JS.VNumber 4) \/
  (JS.toLowerCase s = "high" /\ severityRank s = JS.VNumber 1) \/
  (JS.toLowerCase s = "medium" /\ severityRank s = JS.VNumber 2) \/
  (JS.toLowerCase s = "low" /\ severityRank s = JS.VNumber 3) \/
  (JS.toLowerCase s = "constructor" /\
   severityRank s = JS.VObject "constructor") \/
  (JS.toLowerCase s = "__proto__" /\
   severityRank s = JS.VObject "__proto__") \/
  (JS.toLowerCase s <> "critical" /\ JS.toLowerCase s <> "high" /\
   JS.toLowerCase s <> "medium" /\ JS.toLowerCase s <> "low" /\
   JS.toLowerCase s <> "constructor" /\ JS.toLowerCase s <> "__proto__" /\
   severityRank s = JS.VNumber 4).
Proof.
  unfold severityRank, JS.get, severityOrder. cbn [JS.own].
  destruct (String.eqb_spec (JS.toLowerCase s) "critical") as [E|N1];
    [left; rewrite E; now split|].
  destruct (String.eqb_spec (JS.toLowerCase s) "high") as [E|N2];
    [right; left; rewrite E; now split|].
  destruct (String.eqb_spec (JS.toLowerCase s) "medium") as [E|N3];
    [right; right; left; rewrite E; now split|].
  destruct (String.eqb_spec (JS.toLowerCase s) "low") as [E|N4];
    [right; right; right; left; rewrite E; now split|].
  destruct (existsb (String.eqb (JS.toLowerCase s)) JS.Object_prototype)
    eqn:Ex.
  - destruct (inherited_lower s Ex) as [E|E]; rewrite E.
    + right; right; right; right; left. now split.
    + right; right; right; right; right; left. now split.
  - do 6 right. repeat split; try assumption.
    + intros E. rewrite E in Ex. discriminate Ex.
    + intros E. rewrite E in Ex. discriminate Ex.
Qed.

(** Off the two inherited properties, a label that is none of the four keys
    has rank 4, and no rank is above 4. *)
Lemma severityRank_other (s : string) :
  JS.toLowerCase s <> "critical" -> JS.toLowerCase s <> "high" ->
  JS.toLowerCase s <> "medium" -> JS.toLowerCase s <> "low" ->
  JS.toLowerCase s <> "constructor" -> JS.toLowerCase s <> "__proto__" ->
  severityRank s = JS.VNumber 4.
Proof.
  intros.
  destruct (severityRank_cases s)
    as [[E _]|[[E _]|[[E _]|[[E _]|[[E _]|[[E _]|H']]]]]];
    try contradiction.
  apply H'.
Qed.

Lemma severityRank_le_4 (s : string) (n : Z) :
  severityRank s = JS.VNumber n -> (1 <= n <= 4)%Z.
Proof.
  intros E.
  destruct (severityRank_cases s)
    as [[_ R]|[[_ R]|[[_ R]|[[_ R]|[[_ R]|[[_ R]|H']]]]]];
    try (rewrite R in E; inversion E; lia).
  destruct H' as (_ & _ & _ & _ & _ & _ & R).
  rewrite R in E; inversion E; lia.
Qed.

End Classifier.

(** ** The sort *)

Section SortFacts.
Context {A : Type} (comparefn : A -> A -> option Z).

Lemma insert_length (x : A) (l : list A) :
  List.length (JS.insert comparefn x l) = S (List.length l).
Proof.
  induction l as [|y l IH]; simpl; [reflexivity|].
  destruct (0 <? JS.SortCompare comparefn x y)%Z; simpl; congruence.
Qed.

Lemma sort_length (l : list A) :
  List.length (JS.sort comparefn l) = List.length l.
Proof.
  induction l as [|x l IH]; simpl; [reflexivity|].
  now rewrite insert_length, IH.
Qed.

Lemma insert_In (x z : A) (l : list A) :
  In z (JS.insert comparefn x l) <-> z = x \/ In z l.
Proof.
  induction l as [|y l IH]; simpl.
  - intuition congruence.
  - destruct (0 <? JS.SortCompare comparefn x y)%Z; simpl.
    + rewrite IH. intuition congruence.
    + intuition congruence.
Qed.

Lemma sort_In (z : A) (l : list A) :
  In z (JS.sort comparefn l) <-> In z l.
Proof.
  induction l as [|x l IH]; simpl; [reflexivity|].
  rewrite insert_In, IH. intuition congruence.
Qed.

(** Elements that never compare greater than one another keep their
    order: an insertion moves [x] past [y] only when [x] compares greater
    than [y]. *)
Section Stable.
Variable p : A -> bool.
Hypothesis p_tied : forall x y, p x = true -> p y = true ->
  (0 <? JS.SortCompare comparefn x y)%Z = false.

Lemma insert_filter (x : A) (l : list A) :
  filter p (JS.insert comparefn x l) = filter p (x :: l).
Proof.
  induction l as [|y l IH]; [reflexivity|].
  cbn [JS.insert].
  destruct (0 <? JS.SortCompare comparefn x y)%Z eqn:G; [|reflexivity].
  cbn [filter] in *. rewrite IH.
  destruct (p x) eqn:Px, (p y) eqn:Py; try reflexivity.
  rewrite (p_tied x y Px Py) in G. discriminate G.
Qed.

Lemma sort_filter (l : list A) :
  filter p (JS.sort comparefn l) = filter p l.
Proof.
  induction l as [|x l IH]; [reflexivity|].
  cbn [JS.sort fold_right]. rewrite insert_filter.
  cbn [filter]. fold (JS.sort comparefn l). now rewrite IH.
Qed.

End Stable.

End SortFacts.

(** Where the comparator is the difference of a key, the sort orders by the
    key; and a list has one sorted arrangement only that keeps the order of
    the elements of each key. *)
Section Keyed.
Context {A : Type} (comparefn : A -> A -> option Z).
Variable key : A -> Z.
Variable ok : A -> Prop.
Hypothesis cmp_key : forall x y, ok x -> ok y ->
  JS.SortCompare comparefn x y = (key x - key y)%Z.

Let le_key (a b : A) : Prop := (key a <= key b)%Z.

Lemma insert_sorted (x : A) (l : list A) :
  ok x -> Forall ok l -> StronglySorted le_key l ->
  StronglySorted le_key (JS.insert comparefn x l).
Proof.
  intros Hx Hl S. induction l as [|y l IH]; cbn [JS.insert].
  - constructor; constructor.
  - inversion Hl as [|? ? Hy Hl']; subst.
    inversion S as [|? ? S' Fy]; subst.
    rewrite (cmp_key x y Hx Hy).
    destruct (0 <? key x - key y)%Z eqn:G.
    + apply Z.ltb_lt in G. constructor; [now apply IH|].
      apply Forall_forall. intros z Hz. apply insert_In in Hz.
      destruct Hz as [->|Hz]; [unfold le_key; lia|].
      rewrite Forall_forall in Fy. now apply Fy.
    + apply Z.ltb_ge in G. constructor; [exact S|].
      constructor; [unfold le_key; lia|].
      apply Forall_forall. intros z Hz. rewrite Forall_forall in Fy.
      specialize (Fy z Hz). unfold le_key in *. lia.
Qed.

Lemma sort_sorted (l : list A) :
  Forall ok l -> StronglySorted le_key (JS.sort comparefn l).
Proof.
  induction l as [|x l IH]; intros H; [constructor|].
  inversion H; subst. cbn [JS.sort fold_right]. apply insert_sorted; auto.
  apply Forall_forall. intros z Hz. apply sort_In in Hz.
  rewrite Forall_forall in H. apply H. now right.
Qed.

Lemma sorted_stable_unique (l1 l2 : list A) :
  StronglySorted le_key l1 -> StronglySorted le_key l2 ->
  (forall k, filter (fun x => key x =? k)%Z l1
             = filter (fun x => key x =? k)%Z l2) ->
  l1 = l2.
Proof.
  revert l2. induction l1 as [|a l1 IH]; intros l2 S1 S2 H.
  - destruct l2 as [|b l2]; [reflexivity|].
    specialize (H (key b)). cbn in H. rewrite Z.eqb_refl in H. discriminate H.
  - destruct l2 as [|b l2].
    { specialize (H (key a)). cbn in H. rewrite Z.eqb_refl in H.
      discriminate H. }
    inversion S1 as [|? ? S1' F1]; inversion S2 as [|? ? S2' F2]; subst.
    rewrite Forall_forall in F1, F2.
    assert (Hab : (key b <= key a)%Z).
    { assert (I : In a (filter (fun x => key x =? key a)%Z (b :: l2))).
      { rewrite <- H. cbn. rewrite Z.eqb_refl. now left. }
      apply filter_In in I. destruct I as [[->|I] _]; [lia|].
      now apply F2. }
    assert (Hba : (key a <= key b)%Z).
    { assert (I : In b (filter (fun x => key x =? key b)%Z (a :: l1))).
      { rewrite H. cbn. rewrite Z.eqb_refl. now left. }
      apply filter_In in I. destruct I as [[->|I] _]; [lia|].
      now apply F1. }
    assert (E : key a = key b) by lia.
    assert (Heq := H (key a)). cbn in Heq.
    rewrite <- E, Z.eqb_refl in Heq. injection Heq as -> Ht.
    f_equal. apply IH; auto.
    intros k. specialize (H k). cbn in H.
    destruct (key b =? k)%Z; [now injection H|exact H].
Qed.

End Keyed.

Lemma value_eqb_eq (v w : JS.value) : JS.value_eqb v w = true -> v = w.
Proof.
  destruct v, w; simpl; try discriminate; intros H.
  - reflexivity.
  - apply Z.eqb_eq in H. now subst.
  - apply String.eqb_eq in H. now subst.
Qed.

(** Two issues of the same rank compare equal: their difference is 0, or
    NaN, which the sort reads as 0. *)
Lemma compareSeverity_tied (a b : Issue) :
  severityRank (severity a) = severityRank (severity b) ->
  JS.SortCompare compareSeverity a b = 0%Z.
Proof.
  intros E. unfold JS.SortCompare, compareSeverity, JS.sub. rewrite E.
  destruct (JS.ToNumber (severityRank (severity b))); [f_equal; lia|reflexivity].
Qed.

(** Two issues with numeric ranks compare by the difference of the ranks. *)
Lemma compareSeverity_ranked (a b : Issue) (n m : Z) :
  severityRank (severity a) = JS.VNumber n ->
  severityRank (severity b) = JS.VNumber m ->
  JS.SortCompare compareSeverity a b = (n - m)%Z.
Proof.
  intros Ea Eb. unfold JS.SortCompare, compareSeverity. now rewrite Ea, Eb.
Qed.

(** Runs the insertions of a sort whose elements have known numeric ranks. *)
Ltac by_rank :=
  repeat (cbn [fold_right JS.insert];
          try (erewrite compareSeverity_ranked by eassumption;
               match goal with
               | |- context [(0 <? ?e)%Z] =>
                   let v := eval vm_compute in (0 <? e)%Z in
                   change (0 <? e)%Z with v
               end;
               cbv iota)).

(** C9.  With an issue labelled [constructor] among issues labelled high
    and medium, the comparator is not consistent: it finds high equal to
    [constructor], their difference being NaN, and [constructor] equal to
    medium, and high less than medium.  The order of the sorted list is
    then the engine's, and with it the order of the issues labelled
    high. *)
Theorem compareSeverity_inconsistent :
  In (Sample.issueLabelled "high") Sample.withConstructor /\
  In (Sample.issueLabelled "constructor") Sample.withConstructor /\
  In (Sample.issueLabelled "medium") Sample.withConstructor /\
  compareSeverity (Sample.issueLabelled "high")
                  (Sample.issueLabelled "constructor") = None /\
  JS.SortCompare compareSeverity (Sample.issueLabelled "high")
                 (Sample.issueLabelled "constructor") = 0%Z /\
  JS.SortCompare compareSeverity (Sample.issueLabelled "constructor")
                 (Sample.issueLabelled "medium") = 0%Z /\
  JS.SortCompare compareSeverity (Sample.issueLabelled "high")
                 (Sample.issueLabelled "medium") = (-1)%Z /\
  ~ Forall hasRankNumber Sample.withConstructor.
Proof.
  repeat split; try reflexivity; try (simpl; tauto).
  intros H. rewrite Forall_forall in H.
  destruct (H (Sample.issueLabelled "constructor")) as [n Hn];
    [simpl; tauto | discriminate Hn].
Qed.

(** What V8 makes of the seven issues: the issue labelled high that came
    last is put before the one that came before it, and both after the
    issue labelled [constructor] is passed over.  Where every rank is a
    number, as in the scenario of the four labels, V8's order is the one
    of [sortedIssues]. *)
Lemma sortedIssues_V8 :
  map (fun i : Issue => severity i) Sample.numbered
  = map (fun i : Issue => severity i) Sample.withConstructor /\
  map (fun i : Issue => description i)
      (JS.V8_sort compareSeverity Sample.numbered)
  = ["0"; "1"; "3"; "6"; "2"; "4"; "5"] /\
  map (fun i : Issue => severity i)
      (JS.V8_sort compareSeverity Sample.numbered)
  = ["high"; "high"; "high"; "high"; "medium"; "constructor"; "high"] /\
  JS.V8_sort compareSeverity
    (map Sample.issueLabelled ["Low"; "Critical"; "high"; "medium"])
  = sortedIssues
      (map Sample.issueLabelled ["Low"; "Critical"; "high"; "medium"]).
Proof. repeat split; vm_compute; reflexivity. Qed.

(** *** The order, where every rank is a number

    Off the labels [constructor] and [__proto__] the comparator is the
    difference of [rankNumber], and the sorted list is the one arrangement
    of the issues that is ascending in [rankNumber] and keeps the order of
    the issues of each rank: the choice of a sorting algorithm is
    immaterial. *)

Lemma rankNumber_spec (i : Issue) (n : Z) :
  severityRank (severity i) = JS.VNumber n -> rankNumber i = n.
Proof. unfold rankNumber. now intros ->. Qed.

Lemma compareSeverity_rankNumber (a b : Issue) :
  hasRankNumber a -> hasRankNumber b ->
  JS.SortCompare compareSeverity a b = (rankNumber a - rankNumber b)%Z.
Proof.
  intros [n Hn] [m Hm].
  rewrite (rankNumber_spec a n Hn), (rankNumber_spec b m Hm).
  now apply compareSeverity_ranked.
Qed.

Lemma sortedIssues_sorted (l : list Issue) :
  Forall hasRankNumber l ->
  StronglySorted (fun a b => (rankNumber a <= rankNumber b)%Z)
                 (sortedIssues l).
Proof.
  intros H. unfold sortedIssues.
  apply (sort_sorted compareSeverity rankNumber hasRankNumber);
    [exact compareSeverity_rankNumber | exact H].
Qed.

Lemma ofRank_rankNumber (l : list Issue) (k : Z) :
  Forall hasRankNumber l ->
  filter (fun i => rankNumber i =? k)%Z l = ofRank (JS.VNumber k) l.
Proof.
  intros H. unfold ofRank. apply filter_ext_in. intros i Hi.
  rewrite Forall_forall in H. destruct (H i Hi) as [n Hn].
  rewrite (rankNumber_spec i n Hn), Hn. reflexivity.
Qed.

Lemma ofRank_hasRankNumber (l l' : list Issue) :
  Forall hasRankNumber l ->
  (forall v, ofRank v l' = ofRank v l) ->
  Forall hasRankNumber l'.
Proof.
  intros H E. apply Forall_forall. intros i Hi.
  assert (I : In i (ofRank (severityRank (severity i)) l')).
  { unfold ofRank. apply filter_In. split; [exact Hi|].
    destruct (severityRank (severity i)); simpl;
      [reflexivity | apply Z.eqb_refl | apply String.eqb_refl]. }
  rewrite E in I. unfold ofRank in I. apply filter_In in I.
  destruct I as [I V]. apply value_eqb_eq in V.
  rewrite Forall_forall in H. destruct (H _ I) as [n Hn].
  exists n. congruence.
Qed.

(** Where every rank is a number, a list that is in ascending order of
    rank and that holds, for each rank, the issues of that rank in the
    order they were given, is the sorted list: no other arrangement is
    both. *)
Lemma sortedIssues_unique (l l' : list Issue) :
  Forall hasRankNumber l ->
  StronglySorted (fun a b => (rankNumber a <= rankNumber b)%Z) l' ->
  (forall v, ofRank v l' = ofRank v l) ->
  l' = sortedIssues l.
Proof.
  intros H S E.
  assert (H' := ofRank_hasRankNumber l l' H E).
  assert (Hs : Forall hasRankNumber (sortedIssues l)).
  { apply Forall_forall. intros i Hi. apply sort_In in Hi.
    rewrite Forall_forall in H. now apply H. }
  apply (sorted_stable_unique rankNumber);
    [exact S | now apply sortedIssues_sorted|].
  intros k. rewrite (ofRank_rankNumber l' k H'), (ofRank_rankNumber _ k Hs).
  rewrite E. symmetry. unfold ofRank, sortedIssues. apply sort_filter.
  intros a b Ha Hb. apply value_eqb_eq in Ha, Hb.
  rewrite compareSeverity_tied by congruence. reflexivity.
Qed.

Lemma sortedIssues_unique_witness :
  [Sample.issueLabelled "high"; Sample.issueLabelled "Low"]
  = sortedIssues [Sample.issueLabelled "Low"; Sample.issueLabelled "high"].
Proof.
  assert (R1 : severityRank (severity (Sample.issueLabelled "high"))
               = JS.VNumber 1) by reflexivity.
  assert (R3 : severityRank (severity (Sample.issueLabelled "Low"))
               = JS.VNumber 3) by reflexivity.
  apply (sortedIssues_unique
           [Sample.issueLabelled "Low"; Sample.issueLabelled "high"]
           [Sample.issueLabelled "high"; Sample.issueLabelled "Low"]).
  - repeat constructor; eexists; reflexivity.
  - repeat constructor. unfold rankNumber. rewrite R1, R3. lia.
  - intros v. unfold ofRank. cbn [filter]. rewrite R1, R3.
    destruct v as [|n|name]; cbn [JS.value_eqb]; try reflexivity.
    destruct (Z.eqb_spec 1 n) as [<-|N1]; [reflexivity|].
    destruct (Z.eqb_spec 3 n); reflexivity.
Defined.

(** The sort neither drops nor adds an issue. *)
Lemma sortedIssues_length (l : list Issue) :
  List.length (sortedIssues l) = List.length l.
Proof. apply sort_length. Qed.

(** C1.  On the scenario's labels the sort puts the issue labelled
    Critical last, after Low: the rank [0] of [critical] is falsy, so
    [|| 4] replaces it by the rank of an unknown label. *)
Theorem sortedIssues_scenario (a b c d : Issue) :
  severity a = "Low" -> severity b = "Critical" ->
  severity c = "high" -> severity d = "medium" ->
  sortedIssues [a; b; c; d] = [c; d; a; b].
Proof.
  intros Ha Hb Hc Hd.
  assert (Ra : severityRank (severity a) = JS.VNumber 3)
    by (rewrite Ha; reflexivity).
  assert (Rb : severityRank (severity b) = JS.VNumber 4)
    by (rewrite Hb; reflexivity).
  assert (Rc : severityRank (severity c) = JS.VNumber 1)
    by (rewrite Hc; reflexivity).
  assert (Rd : severityRank (severity d) = JS.VNumber 2)
    by (rewrite Hd; reflexivity).
  unfold sortedIssues, JS.sort. by_rank.
  reflexivity.
Qed.

Lemma sortedIssues_scenario_witness :
  sortedIssues (map Sample.issueLabelled ["Low"; "Critical"; "high"; "medium"])
  = map Sample.issueLabelled ["high"; "medium"; "Low"; "Critical"].
Proof.
  apply (sortedIssues_scenario (Sample.issueLabelled "Low")
           (Sample.issueLabelled "Critical") (Sample.issueLabelled "high")
           (Sample.issueLabelled "medium")); reflexivity.
Defined.

(** Where no rank is replaced, the order is the one of [severityOrder]:
    high, then medium, then low. *)
Lemma sortedIssues_high_medium_low (a b c : Issue) :
  severity a = "low" -> severity b = "Medium" -> severity c = "HIGH" ->
  sortedIssues [a; b; c] = [c; b; a].
Proof.
  intros Ha Hb Hc.
  assert (Ra : severityRank (severity a) = JS.VNumber 3)
    by (rewrite Ha; reflexivity).
  assert (Rb : severityRank (severity b) = JS.VNumber 2)
    by (rewrite Hb; reflexivity).
  assert (Rc : severityRank (severity c) = JS.VNumber 1)
    by (rewrite Hc; reflexivity).
  unfold sortedIssues, JS.sort. by_rank. reflexivity.
Qed.

(** C8.  The rank of the label [constructor] is not the rank 4 of an
    unknown label but the function that every object inherits under that
    name; so is the one of [__proto__].  Its difference with any rank is
    NaN, and an issue so labelled stays in front of one labelled high. *)
Theorem severityRank_inherited :
  getSeverityClass "constructor" = "" /\
  severityRank "constructor" = JS.VObject "constructor" /\
  severityRank "__proto__" = JS.VObject "__proto__" /\
  compareSeverity (Sample.issueLabelled "constructor")
                  (Sample.issueLabelled "high") = None /\
  map (fun i : Issue => severity i)
      (sortedIssues [Sample.issueLabelled "constructor";
                     Sample.issueLabelled "high"])
  = ["constructor"; "high"].
Proof. repeat split; reflexivity. Qed.

(** ** The statistics *)

Lemma allIssues_length (r : EvaluationResultAI) :
  List.length (allIssues r)
  = list_sum (map (fun p => List.length (page_analysis_results p))
                  (analysis_results r)).
Proof.
  unfold allIssues. induction (analysis_results r) as [|p ps IH];
    [reflexivity|].
  cbn [flat_map map list_sum]. now rewrite length_app, length_map, IH.
Qed.

(** An issue is counted in at most one slice of the pie. *)
Lemma pieData_le (l : list Issue) :
  list_sum (pieData l) <= issuesFound l.
Proof.
  unfold pieData, issuesFound, countSeverity, list_sum. cbn [fold_right].
  induction l as [|i l IH]; [simpl; lia|].
  cbn [filter].
  destruct (String.eqb_spec (JS.toLowerCase (severity i)) "high") as [E1|_];
    destruct (String.eqb_spec (JS.toLowerCase (severity i)) "medium")
      as [E2|_];
    destruct (String.eqb_spec (JS.toLowerCase (severity i)) "low") as [E3|_];
    try (rewrite E1 in *; discriminate); try (rewrite E2 in *; discriminate);
    cbn [List.length]; lia.
Qed.

(** An issue labelled high, medium or low is counted in exactly one. *)
Lemma pieData_sum_list (l : list Issue) :
  (forall i : Issue, In i l ->
     JS.toLowerCase (severity i) = "high" \/
     JS.toLowerCase (severity i) = "medium" \/
     JS.toLowerCase (severity i) = "low") ->
  list_sum (pieData l) = List.length l.
Proof.
  unfold pieData, countSeverity, list_sum. cbn [fold_right].
  induction l as [|i l IH]; intros H; [reflexivity|].
  assert (IH' := IH (fun j Hj => H j (or_intror Hj))).
  cbn [filter].
  destruct (H i (or_introl eq_refl)) as [E|[E|E]]; rewrite E;
    cbn [String.eqb Ascii.eqb Bool.eqb List.length]; lia.
Qed.

(** C2, amended.  When every issue is labelled high, medium or low, in any
    case of the letters, the counts of the pie add up to the number shown
    as Issues Found, which is the length of the flattened list of issues,
    the sum of the lengths of the pages' lists. *)
Theorem pieData_sum (r : EvaluationResultAI) :
  (forall i : Issue, In i (allIssues r) ->
     JS.toLowerCase (severity i) = "high" \/
     JS.toLowerCase (severity i) = "medium" \/
     JS.toLowerCase (severity i) = "low") ->
  list_sum (pieData (allIssues r)) = issuesFound (allIssues r) /\
  issuesFound (allIssues r) = List.length (allIssues r) /\
  List.length (allIssues r)
  = list_sum (map (fun p => List.length (page_analysis_results p))
                  (analysis_results r)).
Proof.
  intros H. split; [|split].
  - now apply pieData_sum_list.
  - reflexivity.
  - apply allIssues_length.
Qed.

Lemma pieData_sum_witness :
  list_sum (pieData (allIssues Sample.fourIssues)) = 4 /\
  issuesFound (allIssues Sample.fourIssues) = 4.
Proof.
  destruct (pieData_sum Sample.fourIssues) as (H1 & H2 & H3).
  - intros i Hi. simpl in Hi.
    repeat (destruct Hi as [<- | Hi]; [simpl; auto|]). destruct Hi.
  - split; [rewrite H1|]; reflexivity.
Defined.

(** C2, as stated, fails: an issue with another label is in no slice. *)
Lemma pieData_sum_counterexample :
  list_sum (pieData (allIssues Sample.infoAndHigh)) = 1 /\
  issuesFound (allIssues Sample.infoAndHigh) = 2 /\
  List.length (allIssues Sample.infoAndHigh) = 2 /\
  list_sum (pieData (allIssues Sample.infoAndHigh))
  <> issuesFound (allIssues Sample.infoAndHigh).
Proof. repeat split. discriminate. Qed.


(* ================================================================== *)
(** ** Numbers *)

Section Binary64.

Lemma digits2_shift52 (m : positive) :
  Zpos (digits2_pos (Pos.mul 4503599627370496 m))
  = (Zpos (digits2_pos m) + 52)%Z.
Proof.
  cbn [Pos.mul digits2_pos]. repeat rewrite Pos2Z.inj_succ. lia.
Qed.

(** [-1], whose mantissa is [2^52] at exponent [-52], times a positive
    finite number: the product's mantissa is shifted back by 52 bits with
    nothing lost, and rounding has nothing to do. *)
Lemma SF64mul_neg_one (m : positive) (e : Z) :
  valid_binary (S754_finite false m e) = true ->
  SF64mul (S754_finite true 4503599627370496 (-52)) (S754_finite false m e)
  = S754_finite true m e.
Proof.
  intros V. unfold SpecFloat.valid_binary, bounded in V.
  apply andb_prop in V. destruct V as [C B].
  unfold canonical_mantissa in C. apply Z.eqb_eq in C.
  unfold SF64mul, SFmul. cbn [xorb]. unfold binary_round_aux.
  assert (S1 : shr_fexp prec emax (Zpos (4503599627370496 * m)) (-52 + e)
                 loc_Exact
               = ({| shr_m := Zpos m; shr_r := false; shr_s := false |}, e)).
  { unfold shr_fexp. cbn [Zdigits2]. rewrite digits2_shift52.
    replace (Z.pos (digits2_pos m) + 52 + (-52 + e))%Z
      with (Z.pos (digits2_pos m) + e)%Z by lia.
    rewrite C. replace (e - (-52 + e))%Z with 52%Z by lia.
    unfold shr. apply f_equal2; [reflexivity | lia]. }
  rewrite S1. cbn [shr_m loc_of_shr_record round_nearest_even].
  assert (S2 : shr_fexp prec emax (Zpos m) e loc_Exact
               = ({| shr_m := Zpos m; shr_r := false; shr_s := false |}, e)).
  { unfold shr_fexp. cbn [Zdigits2]. rewrite C, Z.sub_diag. reflexivity. }
  rewrite S2. cbn [shr_m]. rewrite B. reflexivity.
Qed.

(** [-1] times a positive number, finite or not, is negative. *)
Lemma mul_neg_one_negative (s : float) :
  (0 <? s)%float = true -> ((-1) * s <? 0)%float = true.
Proof.
  intros P. rewrite ltb_spec in P. rewrite ltb_spec, mul_spec.
  change (Prim2SF 0) with (S754_zero false) in *.
  change (Prim2SF (-1)) with (S754_finite true 4503599627370496 (-52)).
  pose proof (Prim2SF_valid s) as V.
  destruct (Prim2SF s) as [sg|sg| |sg m e]; try discriminate P.
  - destruct sg; [discriminate P|]. reflexivity.
  - destruct sg; [discriminate P|].
    rewrite SF64mul_neg_one by exact V. reflexivity.
Qed.


End Binary64.

(* ================================================================== *)
(** ** The annotation mapper *)

Section Mapper.
Import ImageAnnotator.

(** C6.  For every annotation and scale the box has [left] and [top] the
    top-left corner times the scale, [width] the difference of the x of the
    top-right and top-left corners times the scale, and [height] the
    difference of the y of the bottom-left and top-left corners times the
    scale.  A container 500 wide over an image 1000 wide gives the scale
    0.5, at which the corners (100,100), (300,100) and (100,200) give the
    box of left 50, top 50, width 100 and height 50, whatever the fourth
    corner and the label. *)
Theorem project_box :
  (forall scale a,
     left (project scale a) = (x (top_left a) * scale)%float /\
     top (project scale a) = (y (top_left a) * scale)%float /\
     width (project scale a)
     = ((x (top_right a) - x (top_left a)) * scale)%float /\
     height (project scale a)
     = ((y (bottom_left a) - y (top_left a)) * scale)%float) /\
  computeScale 500 1000 = 0.5%float /\
  (forall bottom_right label,
     project 0.5
       (mkAnnotation (mkCoordinates 100 100) (mkCoordinates 300 100)
                     bottom_right (mkCoordinates 100 200) label)
     = mkBox 50 50 100 50 label).
Proof.
  split; [|split].
  - intros scale a. repeat split.
  - reflexivity.
  - intros bottom_right label. reflexivity.
Qed.


(** C10.  The annotation whose top-right corner is left of its top-left
    corner and whose bottom-left corner is above it is projected as it is:
    at every positive scale its box has a negative width and a negative
    height. *)
Theorem project_inverted (scale : float) :
  (0 <? scale)%float = true ->
  (x (top_right Sample.invertedQuad)
   <? x (top_left Sample.invertedQuad))%float = true /\
  (y (bottom_left Sample.invertedQuad)
   <? y (top_left Sample.invertedQuad))%float = true /\
  (width (project scale Sample.invertedQuad) <? 0)%float = true /\
  (height (project scale Sample.invertedQuad) <? 0)%float = true /\
  render scale [Sample.invertedQuad] = [project scale Sample.invertedQuad].
Proof.
  intros P. split; [reflexivity|]. split; [reflexivity|].
  cbn [project width height Sample.invertedQuad top_left top_right
       bottom_left x y].
  change (0 - 1)%float with (-1)%float.
  split; [|split]; try (now apply mul_neg_one_negative). reflexivity.
Qed.

Lemma project_inverted_witness :
  (0 <? 0.5)%float = true /\
  (width (project 0.5 Sample.invertedQuad) <? 0)%float = true /\
  (height (project 0.5 Sample.invertedQuad) <? 0)%float = true.
Proof.
  split; [reflexivity|].
  destruct (project_inverted 0.5%float) as (_ & _ & W & H & _);
    [reflexivity|].
  split; [exact W | exact H].
Defined.

(** The scenario's quadrilateral, turned over, has the box of its mirror
    image with the signs of the width and the height changed. *)
Lemma project_inverted_scenario :
  project 0.5
    (mkAnnotation (mkCoordinates 300 200) (mkCoordinates 100 200)
                  (mkCoordinates 100 100) (mkCoordinates 300 100) None)
  = mkBox 150 100 (-100) (-50) None.
Proof. reflexivity. Qed.

Lemma annotator_run_snoc (es : list Event) (e : Event) :
  run (es ++ [e]) = step (run es) e.
Proof. unfold run. now rewrite fold_left_app. Qed.

(** The ref has no element: no call of [updateScale] creates an image, so
    that no image is ever loading, and no load sets the scale. *)
Lemma run_idle (es : list Event) :
  scale (run es) = 1%float /\ loading (run es) = [].
Proof.
  induction es as [|e es [S L]] using rev_ind; [now split|].
  rewrite annotator_run_snoc. destruct e as [|n nw]; cbn [step].
  - unfold updateScale, containerRef. now split.
  - rewrite L. destruct n; cbn [nth_error]; now split.
Qed.




End Mapper.

(* ================================================================== *)
(** ** Percentages *)

(** C7, amended.  With no issue at all, the percentage that the pie's
    tooltip computes for a slice is 0 / 0 * 100, which is NaN.  With
    [total_issues] 0, the report computes a bar for each entry of a
    breakdown, of width count / 0 * 100, which is NaN for a count of 0; it
    computes none only for a breakdown without entries. *)
Theorem percentage_of_none (l : list Issue) (i : nat)
        (s : ReportView.Summary) :
  issuesFound l = 0 ->
  ReportView.total_issues s = 0%float ->
  slicePercentage l i = nan /\
  (forall key, In (key, 0%float) (ReportView.severity_breakdown s) ->
     In (key, nan, 0%float) (ReportView.severityBars s)) /\
  (forall key, In (key, 0%float) (ReportView.category_breakdown s) ->
     In (key, nan, 0%float) (ReportView.categoryBars s)) /\
  (ReportView.severity_breakdown s = [] -> ReportView.severityBars s = []) /\
  (ReportView.category_breakdown s = [] -> ReportView.categoryBars s = []).
Proof.
  intros Hl Hs. split; [|split; [|split; [|split]]].
  - destruct l; [|discriminate Hl].
    destruct i as [|[|[|[|i]]]]; reflexivity.
  - intros key Hin. unfold ReportView.severityBars, ReportView.bars.
    rewrite Hs.
    apply (in_map (fun '(key, count) =>
                     (key, ReportView.barWidth 0 count, count))) in Hin.
    exact Hin.
  - intros key Hin. unfold ReportView.categoryBars, ReportView.bars.
    rewrite Hs.
    apply (in_map (fun '(key, count) =>
                     (key, ReportView.barWidth 0 count, count))) in Hin.
    exact Hin.
  - intros E. unfold ReportView.severityBars. now rewrite E.
  - intros E. unfold ReportView.categoryBars. now rewrite E.
Qed.

Lemma percentage_of_none_witness :
  slicePercentage [] 0 = nan /\
  In ("high", nan, 0%float)
     (ReportView.severityBars
        (ReportView.mkSummary 1 0 [("high", 0%float)] [])).
Proof.
  destruct (percentage_of_none [] 0
              (ReportView.mkSummary 1 0 [("high", 0%float)] []))
    as (P & B & _); [reflexivity | reflexivity |].
  split; [exact P|]. apply B. simpl. auto.
Defined.

(** C7, as stated, fails: with no issue, the percentage of the first slice
    of the pie is NaN, and so is the width of the bar of an entry that
    counts 0 of 0 issues. *)
Lemma percentage_counterexample :
  issuesFound [] = 0 /\
  pieData [] = [0; 0; 0] /\
  slicePercentage [] 0 = nan /\
  is_nan (slicePercentage [] 0) = true /\
  ReportView.bars 0 [("high", 0%float)] = [("high", nan, 0%float)].
Proof. repeat split. Qed.

(* ================================================================== *)
(** ** The loading effect *)

Section Loading.

(** No transition fills [screenshots], the list whose URLs the cleanup
    revokes; so the cleanup revokes nothing, and no URL is ever revoked. *)
Lemma step_screenshots (w : World) (e : Event) :
  screenshots (state w) = [] -> screenshots (state (step w e)) = [].
Proof.
  intros H. destruct e as [id|id|id data blob|id err|]; cbn [step].
  - destruct (mounted w); [exact H | reflexivity].
  - destruct (negb (mounted w) || String.eqb id (evaluationId w))%bool;
      exact H.
  - destruct (negb (existsb (String.eqb id) (pending w))); [exact H|].
    cbn. unfold update. destruct (mounted w); exact H.
  - destruct (negb (existsb (String.eqb id) (pending w))); [exact H|].
    cbn. unfold update. destruct (mounted w); exact H.
  - destruct (mounted w); exact H.
Qed.

Lemma step_revoked (w : World) (e : Event) :
  screenshots (state w) = [] -> revoked (urls w) = [] ->
  revoked (urls (step w e)) = [].
Proof.
  intros H R.
  assert (C : cleanup w = urls w) by (unfold cleanup; now rewrite H).
  destruct e as [id|id|id data blob|id err|]; cbn [step].
  - destruct (mounted w); exact R.
  - destruct (negb (mounted w) || String.eqb id (evaluationId w))%bool;
      [exact R|]. cbn [urls]. now rewrite C.
  - destruct (negb (existsb (String.eqb id) (pending w))); exact R.
  - destruct (negb (existsb (String.eqb id) (pending w))); exact R.
  - destruct (mounted w); [|exact R]. cbn [urls]. now rewrite C.
Qed.

Lemma fold_step_revoked (es : list Event) (w : World) :
  screenshots (state w) = [] -> revoked (urls w) = [] ->
  screenshots (state (fold_left step es w)) = [] /\
  revoked (urls (fold_left step es w)) = [].
Proof.
  revert w. induction es as [|e es IH]; intros w H R; [now split|].
  cbn [fold_left].
  apply IH; [now apply step_screenshots | now apply step_revoked].
Qed.

Lemma live_all (u : URLStore) :
  revoked u = [] -> live u = seq 0 (created u).
Proof.
  intros R. unfold live. rewrite R. cbn [existsb negb].
  induction (seq 0 (created u)) as [|n l IH]; [reflexivity|].
  cbn [filter]. now rewrite IH.
Qed.

(** After any events no object URL has been revoked: every URL created is
    still live. *)
Lemma never_revoked (es : list Event) :
  revoked (urls (run es)) = [] /\
  live (urls (run es)) = seq 0 (created (urls (run es))).
Proof.
  destruct (fold_step_revoked es initialWorld eq_refl eq_refl) as [_ R].
  split; [exact R | now apply live_all].
Qed.

(** A response that arrives for a request in flight is written to the
    state whatever evaluation the component shows by then. *)
Lemma fulfil_overwrites (w : World) (id : string) (data : EvaluationResultAI)
      (screenshotData : Blob) :
  mounted w = true -> In id (pending w) ->
  results (state (step w (Fulfil id data screenshotData))) = Some data /\
  imageUrl (state (step w (Fulfil id data screenshotData)))
  = Some (created (urls w)) /\
  isLoading (state (step w (Fulfil id data screenshotData))) = false.
Proof.
  intros M P. cbn [step].
  assert (E : existsb (String.eqb id) (pending w) = true).
  { apply existsb_exists. exists id. split; [exact P | apply String.eqb_refl]. }
  rewrite E. cbn. unfold update. rewrite M. repeat split.
Qed.

End Loading.

(** C4.  The evaluation A loads, the component moves on to B, which loads
    too, and the component is unmounted.  After the second load two object
    URLs are live, the one of A and the one of B that the state holds; the
    unmount revokes neither. *)
Theorem objectURLs_leak (dataA dataB : EvaluationResultAI)
        (blobA blobB : Blob) :
  live (urls (run [Mount "eval-A"; Fulfil "eval-A" dataA blobA]))
  = [0] /\
  live (urls (run [Mount "eval-A"; Fulfil "eval-A" dataA blobA;
                   Navigate "eval-B"]))
  = [0] /\
  live (urls (run [Mount "eval-A"; Fulfil "eval-A" dataA blobA;
                   Navigate "eval-B"; Fulfil "eval-B" dataB blobB]))
  = [0; 1] /\
  imageUrl (state (run [Mount "eval-A"; Fulfil "eval-A" dataA blobA;
                        Navigate "eval-B"; Fulfil "eval-B" dataB blobB]))
  = Some 1 /\
  live (urls (run [Mount "eval-A"; Fulfil "eval-A" dataA blobA;
                   Navigate "eval-B"; Fulfil "eval-B" dataB blobB; Unmount]))
  = [0; 1] /\
  revoked (urls (run [Mount "eval-A"; Fulfil "eval-A" dataA blobA;
                      Navigate "eval-B"; Fulfil "eval-B" dataB blobB;
                      Unmount]))
  = [].
Proof. repeat split. Qed.

(** C5, amended.  A load for B is issued while the load for A is in
    flight, and both succeed.  The response that arrives last is the one
    the state shows once both have settled: the results and the screenshot
    URL are those of B when A's response arrived first, and those of A when
    it arrived after B's.  Neither response is discarded. *)
Theorem last_response_wins (A B : string) (dataA dataB : EvaluationResultAI)
        (blobA blobB : Blob) :
  A <> B ->
  evaluationId (run [Mount A; Navigate B]) = B /\
  pending (run [Mount A; Navigate B]) = [A; B] /\
  state (run [Mount A; Navigate B;
              Fulfil A dataA blobA; Fulfil B dataB blobB])
  = mkState (Some dataB) false None [] (Some 1) /\
  state (run [Mount A; Navigate B;
              Fulfil B dataB blobB; Fulfil A dataA blobA])
  = mkState (Some dataA) false None [] (Some 1) /\
  pending (run [Mount A; Navigate B;
                Fulfil B dataB blobB; Fulfil A dataA blobA]) = [].
Proof.
  intros N.
  assert (NBA : String.eqb B A = false)
    by (apply String.eqb_neq; congruence).
  assert (NAB : String.eqb A B = false) by (now apply String.eqb_neq).
  unfold run.
  repeat (progress
            (cbn [fold_left step initialWorld mounted evaluationId pending
                  state urls app existsb remove1 negb orb createObjectURL
                  created revoked update];
             rewrite ?String.eqb_refl, ?NAB, ?NBA)).
  repeat split.
Qed.

Lemma last_response_wins_witness :
  results (state (run [Mount "eval-A"; Navigate "eval-B";
                       Fulfil "eval-A" Sample.fourIssues "A";
                       Fulfil "eval-B" Sample.infoAndHigh "B"]))
  = Some Sample.infoAndHigh.
Proof.
  destruct (last_response_wins "eval-A" "eval-B" Sample.fourIssues
              Sample.infoAndHigh "A" "B") as (_ & _ & S1 & _);
    [discriminate|].
  now rewrite S1.
Defined.

(** C5, as stated, fails: the response for A that arrives after the one for
    B is not discarded.  The component shows B, and its state holds the
    results of A and the URL of A's screenshot. *)
Lemma stale_response_counterexample :
  evaluationId (run [Mount "eval-A"; Navigate "eval-B";
                     Fulfil "eval-B" Sample.infoAndHigh "B";
                     Fulfil "eval-A" Sample.fourIssues "A"]) = "eval-B" /\
  pending (run [Mount "eval-A"; Navigate "eval-B";
                Fulfil "eval-B" Sample.infoAndHigh "B";
                Fulfil "eval-A" Sample.fourIssues "A"]) = [] /\
  results (state (run [Mount "eval-A"; Navigate "eval-B";
                       Fulfil "eval-B" Sample.infoAndHigh "B";
                       Fulfil "eval-A" Sample.fourIssues "A"]))
  = Some Sample.fourIssues /\
  evaluation_id Sample.fourIssues = "eval-A" /\
  evaluation_id Sample.infoAndHigh = "eval-B" /\
  imageUrl (state (run [Mount "eval-A"; Navigate "eval-B";
                        Fulfil "eval-B" Sample.infoAndHigh "B";
                        Fulfil "eval-A" Sample.fourIssues "A"]))
  = Some 1.
Proof. repeat split. Qed.

(** The message of a rejection for A that arrives after B has loaded stays
    in the state, next to the results of B. *)
Lemma stale_error :
  state (run [Mount "eval-A"; Navigate "eval-B";
              Fulfil "eval-B" Sample.infoAndHigh "B";
              Reject "eval-A" (Some "Not Found")])
  = mkState (Some Sample.infoAndHigh) false (Some "Not Found") [] (Some 0).
Proof. reflexivity. Qed.

(* ================================================================== *)
(** ** The list of heuristics *)

Section Heuristics.
Import HeuristicsList.

Lemma existsb_eqb_In (v : string) (s : list string) :
  existsb (String.eqb v) s = true <-> In v s.
Proof.
  rewrite existsb_exists. split.
  - intros [x [Hx E]]. apply String.eqb_eq in E. now subst.
  - intros H. exists v. split; [exact H | apply String.eqb_refl].
Qed.

Lemma Set_add_In (s : list string) (v x : string) :
  In x (Set_add s v) <-> In x s \/ x = v.
Proof.
  unfold Set_add. destruct (existsb (String.eqb v) s) eqn:E.
  - apply existsb_eqb_In in E. split; [auto|]. intros [H| ->]; assumption.
  - rewrite in_app_iff. simpl. intuition congruence.
Qed.

Lemma Set_add_NoDup (s : list string) (v : string) :
  NoDup s -> NoDup (Set_add s v).
Proof.
  intros N. unfold Set_add. destruct (existsb (String.eqb v) s) eqn:E;
    [exact N|].
  assert (Hn : ~ In v s).
  { intros H. apply existsb_eqb_In in H. congruence. }
  apply NoDup_app; [exact N | repeat constructor; auto |].
  intros x Hx [<-|[]]. contradiction.
Qed.

Lemma fold_Set_add_In (l s : list string) (x : string) :
  In x (fold_left Set_add l s) <-> In x s \/ In x l.
Proof.
  revert s. induction l as [|v l IH]; intros s; cbn [fold_left].
  - simpl. tauto.
  - rewrite IH, Set_add_In. simpl. intuition congruence.
Qed.

Lemma fold_Set_add_NoDup (l s : list string) :
  NoDup s -> NoDup (fold_left Set_add l s).
Proof.
  revert s. induction l as [|v l IH]; intros s N; cbn [fold_left];
    [exact N|].
  apply IH. now apply Set_add_NoDup.
Qed.

(** The first element added stays the first. *)
Lemma fold_Set_add_head (l s : list string) (c : string) :
  exists t, fold_left Set_add l (c :: s) = c :: t.
Proof.
  revert s. induction l as [|v l IH]; intros s; cbn [fold_left].
  - now exists s.
  - unfold Set_add at 2.
    destruct (existsb (String.eqb v) (c :: s)); [apply IH|].
    change ((c :: s) ++ [v])%list with (c :: (s ++ [v]))%list. apply IH.
Qed.

Lemma getCategories_NoDup (s : State) : NoDup (getCategories s).
Proof.
  unfold getCategories, Set_from. apply fold_Set_add_NoDup. constructor.
Qed.

Lemma getCategories_In (s : State) (c : string) :
  In c (getCategories s) <->
  exists h, In h (heuristics s) /\ category h = c.
Proof.
  unfold getCategories, Set_from.
  rewrite fold_Set_add_In, in_map_iff. simpl. split.
  - intros [[]|[h [E H]]]. now exists h.
  - intros [h [H E]]. right. now exists h.
Qed.

(** The sidebar lists each category that some heuristic has, and no other,
    once. *)
Theorem getCategories_spec (s : State) :
  NoDup (getCategories s) /\
  (forall c, In c (getCategories s) <->
             exists h, In h (heuristics s) /\ category h = c).
Proof.
  split; [apply getCategories_NoDup | intros c; apply getCategories_In].
Qed.

(** The grid of a category is empty exactly when the category is not in
    the sidebar. *)
Lemma getHeuristicsByCategory_nil (s : State) (c : string) :
  getHeuristicsByCategory s c = [] <-> ~ In c (getCategories s).
Proof.
  rewrite getCategories_In.
  unfold getHeuristicsByCategory. split.
  - intros E [h [Hh Hcat]].
    assert (I : In h (filter (fun h => category h =? c)
                             (heuristics s))).
    { apply filter_In. split; [exact Hh|]. now apply String.eqb_eq. }
    rewrite E in I. destruct I.
  - intros N.
    destruct (filter (fun h => category h =? c) (heuristics s))
      as [|h l] eqn:E; [reflexivity|].
    exfalso. apply N. exists h.
    assert (I : In h (filter (fun h => category h =? c)
                             (heuristics s))) by (rewrite E; now left).
    apply filter_In in I. destruct I as [I1 I2].
    apply String.eqb_eq in I2. now split.
Qed.

Lemma getHeuristicsByCategory_Forall (s : State) (c : string) :
  Forall (fun k => category k = c /\ In k (heuristics s))
         (getHeuristicsByCategory s c).
Proof.
  apply Forall_forall. intros k H. unfold getHeuristicsByCategory in H.
  apply filter_In in H. destruct H as [H E].
  apply String.eqb_eq in E. now split.
Qed.

(** What is rendered once the heuristics are there. *)
Lemma view_Categories (s : State) (sidebar : list string)
      (active : option string) (g : option (list Heuristic)) :
  view s = Categories sidebar active g ->
  sidebar = getCategories s /\ active = activeCategory s /\ g = grid s /\
  forall c, view (selectCategory c s)
            = Categories sidebar (Some c) (grid (selectCategory c s)).
Proof.
  unfold view, getCategories, selectCategory.
  cbn [isLoading error heuristics activeCategory].
  destruct (isLoading s); [discriminate|].
  destruct (error s) as [[|a m]|]; try discriminate;
    destruct (heuristics s) as [|h l]; try discriminate;
    intros E; injection E as <- <- <-; now repeat split.
Qed.

(** A click on a category of the sidebar makes it the active one and
    leaves the sidebar as it is.  The grid then rendered is the list that
    [getHeuristicsByCategory] gives, which holds at least one heuristic,
    and heuristics of that category only; but for the category that is
    the empty string, which is falsy, no grid is rendered. *)
Theorem selectCategory_grid (s : State) (c : string)
        (sidebar : list string) (active : option string)
        (g : option (list Heuristic)) :
  view s = Categories sidebar active g -> In c sidebar ->
  match c with
  | EmptyString =>
      view (selectCategory c s) = Categories sidebar (Some c) None
  | String _ _ =>
      exists h l,
        view (selectCategory c s)
        = Categories sidebar (Some c) (Some (h :: l)) /\
        getHeuristicsByCategory s c = h :: l /\
        Forall (fun k => category k = c /\ In k (heuristics s)) (h :: l)
  end.
Proof.
  intros V I. destruct (view_Categories _ _ _ _ V) as (-> & _ & _ & W).
  rewrite W. destruct c as [|a c]; [reflexivity|].
  destruct (getHeuristicsByCategory s (String a c)) as [|h l] eqn:E.
  { apply getHeuristicsByCategory_nil in E. contradiction. }
  exists h, l. split; [|split; [reflexivity|]].
  - unfold grid, selectCategory. cbn [activeCategory].
    unfold getHeuristicsByCategory in *. cbn [heuristics]. now rewrite E.
  - rewrite <- E. apply getHeuristicsByCategory_Forall.
Qed.

Lemma selectCategory_grid_witness :
  In "Forms" (getCategories Scenario.listed) /\
  exists h l,
    view (selectCategory "Forms" Scenario.listed)
    = Categories (getCategories Scenario.listed) (Some "Forms")
                 (Some (h :: l)) /\
    getHeuristicsByCategory Scenario.listed "Forms" = h :: l /\
    Forall (fun k => category k = "Forms" /\
                     In k (heuristics Scenario.listed)) (h :: l).
Proof.
  assert (I : In "Forms" (getCategories Scenario.listed)).
  { vm_compute. right. right. now left. }
  split; [exact I|].
  exact (selectCategory_grid Scenario.listed "Forms"
           (getCategories Scenario.listed) (Some "Nielsen")
           (grid Scenario.listed) eq_refl I).
Defined.

Lemma filter_all {A : Type} (l : list A) :
  filter (fun _ => true) l = l.
Proof.
  induction l as [|a l IH]; [reflexivity|]. cbn [filter]. now rewrite IH.
Qed.

Lemma filter_disjoint_app {A : Type} (p q : A -> bool) (l : list A) :
  (forall a, In a l -> p a = true -> q a = false) ->
  Permutation (filter p l ++ filter q l) (filter (fun a => p a || q a) l).
Proof.
  induction l as [|a l IH]; intros D; [constructor|].
  assert (IH' := IH (fun b Hb => D b (or_intror Hb))).
  cbn [filter]. destruct (p a) eqn:Pa; cbn [orb].
  - rewrite (D a (or_introl eq_refl) Pa). cbn [app]. now constructor.
  - destruct (q a).
    + apply Permutation_sym, Permutation_cons_app, Permutation_sym, IH'.
    + exact IH'.
Qed.

Lemma groups_permutation (hs : list Heuristic) (cs : list string) :
  NoDup cs ->
  Permutation
    (flat_map (fun c => filter (fun h => category h =? c) hs) cs)
    (filter (fun h => existsb (String.eqb (category h)) cs) hs).
Proof.
  induction cs as [|c cs IH]; intros N.
  - cbn. induction hs as [|h hs IHh]; [constructor | exact IHh].
  - inversion N as [|? ? Hc N']; subst. cbn [flat_map].
    eapply Permutation_trans;
      [apply Permutation_app_head, IH, N'|].
    eapply Permutation_trans; [apply filter_disjoint_app|].
    + intros h _ E. apply String.eqb_eq in E. subst c.
      destruct (existsb (String.eqb (category h)) cs) eqn:X;
        [|reflexivity].
      apply existsb_eqb_In in X. contradiction.
    + apply Permutation_refl'. apply filter_ext. intros h. reflexivity.
Qed.

(** The grids that clicks render are those of the categories that are not
    the empty string. *)
Lemma rendered_grids (s : State) (cs : list string) :
  flat_map (fun c => gridItems (grid (selectCategory c s))) cs
  = flat_map (getHeuristicsByCategory s)
             (filter (fun c => negb (c =? "")) cs).
Proof.
  induction cs as [|c cs IH]; [reflexivity|].
  cbn [flat_map filter]. rewrite IH.
  destruct c as [|a c]; reflexivity.
Qed.

(** The lists that [getHeuristicsByCategory] gives for the categories
    of the sidebar, put end to end in the order of the sidebar, hold the
    heuristics, each once.  The grids rendered by a click on each category
    of the sidebar hold, each once, the heuristics whose category is not
    the empty string, and none of the others: for the empty string, which
    is falsy, no grid is rendered. *)
Theorem categories_partition (s : State) :
  Permutation (flat_map (getHeuristicsByCategory s) (getCategories s))
              (heuristics s) /\
  Permutation
    (flat_map (fun c => gridItems (grid (selectCategory c s)))
              (getCategories s))
    (filter (fun h => negb (category h =? "")) (heuristics s)) /\
  grid (selectCategory "" s) = None.
Proof.
  assert (N := getCategories_NoDup s).
  assert (Hc := getCategories_In s).
  split; [|split; [|reflexivity]].
  - unfold getHeuristicsByCategory.
    eapply Permutation_trans; [apply groups_permutation, N|].
    apply Permutation_refl'.
    transitivity (filter (fun _ : Heuristic => true) (heuristics s)).
    + apply filter_ext_in. intros h Hh.
      apply existsb_eqb_In. apply Hc. now exists h.
    + apply filter_all.
  - rewrite rendered_grids. unfold getHeuristicsByCategory.
    eapply Permutation_trans;
      [apply groups_permutation, NoDup_filter, N|].
    apply Permutation_refl'. apply filter_ext_in. intros h Hh.
    destruct (negb (category h =? "")) eqn:E.
    + apply existsb_eqb_In, filter_In. split; [|exact E].
      apply Hc. now exists h.
    + destruct (existsb (String.eqb (category h))
                  (filter (fun c => negb (c =? "")) (getCategories s)))
        eqn:X; [|reflexivity].
      apply existsb_eqb_In, filter_In in X. destruct X as [_ X].
      congruence.
Qed.

Lemma fetchHeuristics_first (h : Heuristic) (data : list Heuristic)
      (s : State) :
  activeCategory (fetchHeuristics (inl (h :: data)) s)
  = Some (category h) /\
  isLoading (fetchHeuristics (inl (h :: data)) s) = false.
Proof.
  destruct (fold_Set_add_head (map category data) [] (category h))
    as [t Ht].
  unfold fetchHeuristics.
  change (Set_from (map category (h :: data)))
    with (fold_left Set_add (map category data) [category h]).
  rewrite Ht. now split.
Qed.

Lemma fetchHeuristics_data (data : list Heuristic) (s : State) :
  heuristics (fetchHeuristics (inl data) s) = data /\
  error (fetchHeuristics (inl data) s) = error s.
Proof.
  unfold fetchHeuristics. destruct data as [|h data]; [now split|].
  destruct (Set_from (map category (h :: data))); now split.
Qed.

(** Once heuristics have loaded, the component renders the sidebar,
    headed by the category of the first heuristic, which is the active
    one.  The grid rendered holds that heuristic, and heuristics of its
    category only; but where that category is the empty string, which is
    falsy, no grid is rendered, and the first heuristic is not shown. *)
Theorem fetchHeuristics_loaded (h : Heuristic) (data : list Heuristic) :
  exists t,
    getCategories (fetchHeuristics (inl (h :: data)) initialState)
    = category h :: t /\
    match category h with
    | EmptyString =>
        view (fetchHeuristics (inl (h :: data)) initialState)
        = Categories (category h :: t) (Some (category h)) None
    | String _ _ =>
        exists g,
          view (fetchHeuristics (inl (h :: data)) initialState)
          = Categories (category h :: t) (Some (category h)) (Some g) /\
          In h g /\
          Forall (fun k => category k = category h /\ In k (h :: data)) g
    end.
Proof.
  destruct (fold_Set_add_head (map category data) [] (category h))
    as [t Ht].
  assert (E : Set_from (map category (h :: data)) = category h :: t).
  { unfold Set_from. cbn [map fold_left]. exact Ht. }
  destruct (fetchHeuristics_first h data initialState) as (A & L).
  destruct (fetchHeuristics_data (h :: data) initialState) as [D Er].
  exists t. unfold getCategories. rewrite D.
  split; [exact E|].
  unfold view, grid, getCategories, getHeuristicsByCategory.
  rewrite L, Er, D, A, E. cbn [initialState error].
  destruct (category h) as [|a c] eqn:C; [reflexivity|].
  eexists. split; [reflexivity|]. split.
  - apply filter_In. split; [now left|]. rewrite C. apply String.eqb_refl.
  - apply Forall_forall. intros k H. apply filter_In in H.
    destruct H as [H Q]. apply String.eqb_eq in Q. now split.
Qed.

(** Whatever the fetch gives, the component no longer shows the spinner.
    It shows the message of a rejection, the default one for a reason that
    is not an [Error]; the categories of a list that has heuristics, the one
    of the first heuristic active; and that no heuristics were found for an
    empty list, and for an [Error] whose message is empty. *)
Theorem fetchHeuristics_view
        (outcome : list Heuristic + option string) :
  match outcome with
  | inr (Some (String c m)) =>
      view (fetchHeuristics outcome initialState)
      = ErrorMessage (String c m)
  | inr None =>
      view (fetchHeuristics outcome initialState)
      = ErrorMessage "Failed to load heuristics"
  | inl (h :: data) =>
      exists grid,
        view (fetchHeuristics outcome initialState)
        = Categories (Set_from (map category (h :: data)))
                     (Some (category h)) grid
  | _ => view (fetchHeuristics outcome initialState) = NoHeuristics
  end.
Proof.
  destruct outcome as [[|h data]|[[|c m]|]]; try reflexivity.
  destruct (fetchHeuristics_first h data initialState) as (A & L).
  destruct (fetchHeuristics_data (h :: data) initialState) as [D Er].
  unfold view, getCategories. rewrite L, Er, D, A. cbn [initialState error].
  eexists. reflexivity.
Qed.

End Heuristics.

(* ================================================================== *)
(** ** The selection of heuristics *)

Section Selection.
Import EvaluationForm.

Lemma toggleHeuristic_In_self (id : string) (sel : list string) :
  In id (toggleHeuristic id sel) <-> ~ In id sel.
Proof.
  unfold toggleHeuristic. destruct (existsb (String.eqb id) sel) eqn:E.
  - apply existsb_eqb_In in E. split; [|contradiction].
    intros H. apply filter_In in H. destruct H as [_ H].
    rewrite String.eqb_refl in H. discriminate H.
  - assert (N : ~ In id sel).
    { intros H. apply existsb_eqb_In in H. congruence. }
    split; [auto|]. intros _. apply in_or_app. right. now left.
Qed.

Lemma toggleHeuristic_In_other (id j : string) (sel : list string) :
  j <> id -> (In j (toggleHeuristic id sel) <-> In j sel).
Proof.
  intros N. unfold toggleHeuristic.
  destruct (existsb (String.eqb id) sel).
  - rewrite filter_In. apply String.eqb_neq in N. rewrite N. simpl. tauto.
  - rewrite in_app_iff. simpl. intuition congruence.
Qed.

(** A toggle changes whether the heuristic toggled is selected, and of no
    other. *)
Theorem toggleHeuristic_In (id j : string) (sel : list string) :
  (In id (toggleHeuristic id sel) <-> ~ In id sel) /\
  (j <> id -> (In j (toggleHeuristic id sel) <-> In j sel)).
Proof.
  split; [apply toggleHeuristic_In_self | apply toggleHeuristic_In_other].
Qed.

(** A selection without a repeated heuristic stays so. *)
Theorem toggleHeuristic_NoDup (id : string) (sel : list string) :
  NoDup sel -> NoDup (toggleHeuristic id sel).
Proof.
  intros N. unfold toggleHeuristic.
  destruct (existsb (String.eqb id) sel) eqn:E.
  - now apply NoDup_filter.
  - assert (Hn : ~ In id sel).
    { intros H. apply existsb_eqb_In in H. congruence. }
    apply NoDup_app; [exact N | repeat constructor; auto |].
    intros x Hx [<-|[]]. contradiction.
Qed.

Lemma toggleHeuristic_NoDup_witness :
  NoDup (toggleHeuristic "h2" ["h1"; "h2"; "h3"]) /\
  toggleHeuristic "h2" ["h1"; "h2"; "h3"] = ["h1"; "h3"].
Proof.
  split; [|reflexivity].
  apply (toggleHeuristic_NoDup "h2" ["h1"; "h2"; "h3"]).
  repeat constructor; simpl; intuition discriminate.
Defined.

(** Selecting a heuristic that is not selected and deselecting it gives
    the selection back as it was. *)
Theorem toggleHeuristic_twice (id : string) (sel : list string) :
  ~ In id sel ->
  toggleHeuristic id (toggleHeuristic id sel) = sel.
Proof.
  intros N.
  assert (E : existsb (String.eqb id) sel = false).
  { destruct (existsb (String.eqb id) sel) eqn:E; [|reflexivity].
    apply existsb_eqb_In in E. contradiction. }
  unfold toggleHeuristic at 2. rewrite E.
  unfold toggleHeuristic.
  assert (E' : existsb (String.eqb id) (sel ++ [id]) = true).
  { apply existsb_eqb_In, in_or_app. right. now left. }
  rewrite E', filter_app. cbn [filter]. rewrite String.eqb_refl.
  cbn [negb]. rewrite app_nil_r.
  clear E E'. induction sel as [|h sel IH]; [reflexivity|].
  cbn [filter].
  destruct (String.eqb_spec h id) as [->|_].
  - exfalso. apply N. now left.
  - cbn [negb]. f_equal. apply IH. intros H. apply N. now right.
Qed.

Lemma toggleHeuristic_twice_witness :
  toggleHeuristic "h4" (toggleHeuristic "h4" ["h1"; "h2"; "h3"])
  = ["h1"; "h2"; "h3"].
Proof.
  apply (toggleHeuristic_twice "h4" ["h1"; "h2"; "h3"]).
  simpl. intuition discriminate.
Defined.

End Selection.

(* ================================================================== *)
(** ** The results page *)

Lemma insert_Permutation {A : Type} (comparefn : A -> A -> option Z)
      (x : A) (l : list A) :
  Permutation (JS.insert comparefn x l) (x :: l).
Proof.
  induction l as [|y l IH]; cbn [JS.insert]; [reflexivity|].
  destruct (0 <? JS.SortCompare comparefn x y)%Z; [|reflexivity].
  eapply Permutation_trans; [apply perm_skip, IH | apply perm_swap].
Qed.

Lemma sort_Permutation {A : Type} (comparefn : A -> A -> option Z)
      (l : list A) :
  Permutation (JS.sort comparefn l) l.
Proof.
  induction l as [|x l IH]; cbn [JS.sort fold_right]; [reflexivity|].
  eapply Permutation_trans; [apply insert_Permutation|].
  apply perm_skip, IH.
Qed.

(** The sort gives the issues back, each as many times as it was given,
    whatever their labels. *)
Theorem sortedIssues_permutation (l : list Issue) :
  Permutation (sortedIssues l) l.
Proof. apply sort_Permutation. Qed.

(** Where no label is [constructor] or [__proto__] in lower case, the
    sorted issues are in ascending order of the rank that the comparator
    uses: 1 for high, 2 for medium, 3 for low, and 4 for critical and for
    every other label. *)
Theorem sortedIssues_ascending (l : list Issue) :
  Forall (fun i : Issue =>
            JS.toLowerCase (severity i) <> "constructor" /\
            JS.toLowerCase (severity i) <> "__proto__") l ->
  StronglySorted (fun a b => (rankNumber a <= rankNumber b)%Z)
                 (sortedIssues l) /\
  Forall (fun i : Issue =>
            rankNumber i
            = if String.eqb (JS.toLowerCase (severity i)) "high" then 1%Z
              else if String.eqb (JS.toLowerCase (severity i)) "medium"
                   then 2%Z
              else if String.eqb (JS.toLowerCase (severity i)) "low"
                   then 3%Z
              else 4%Z) l.
Proof.
  intros H. split.
  - unfold sortedIssues.
    apply (sort_sorted compareSeverity rankNumber hasRankNumber);
      [exact compareSeverity_rankNumber|].
    apply Forall_forall. intros i Hi. rewrite Forall_forall in H.
    destruct (H i Hi) as [N1 N2]. unfold hasRankNumber.
    destruct (severityRank_cases (severity i))
      as [[_ R]|[[_ R]|[[_ R]|[[_ R]|[[E _]|[[E _]|R]]]]]];
      try contradiction; eauto.
    destruct R as (_ & _ & _ & _ & _ & _ & R). eauto.
  - apply Forall_forall. intros i Hi. rewrite Forall_forall in H.
    destruct (H i Hi) as [N1 N2]. unfold rankNumber.
    destruct (severityRank_cases (severity i))
      as [[E R]|[[E R]|[[E R]|[[E R]|[[E _]|[[E _]|R]]]]]];
      try contradiction; try (rewrite R, E; reflexivity).
    destruct R as (R1 & R2 & R3 & R4 & _ & _ & R). rewrite R.
    apply String.eqb_neq in R2, R3, R4. now rewrite R2, R3, R4.
Qed.

Lemma sortedIssues_ascending_witness :
  StronglySorted (fun a b => (rankNumber a <= rankNumber b)%Z)
    (sortedIssues
       (map Sample.issueLabelled ["Low"; "Critical"; "high"; "medium"])).
Proof.
  apply (sortedIssues_ascending
           (map Sample.issueLabelled ["Low"; "Critical"; "high"; "medium"])).
  repeat constructor; discriminate.
Defined.

(** The issues that are in no slice of the pie are those whose label, in
    lower case, is none of high, medium and low: their number and the
    counts of the slices add up to the number of issues. *)
Theorem pieData_complement (l : list Issue) :
  list_sum (pieData l)
  + List.length
      (filter (fun i : Issue =>
                 negb (JS.toLowerCase (severity i) =? "high") &&
                 negb (JS.toLowerCase (severity i) =? "medium") &&
                 negb (JS.toLowerCase (severity i) =? "low")) l)
  = issuesFound l.
Proof.
  unfold pieData, issuesFound, countSeverity, list_sum. cbn [fold_right].
  induction l as [|i l IH]; [reflexivity|].
  cbn [filter].
  destruct (String.eqb_spec (JS.toLowerCase (severity i)) "high") as [E1|_];
    destruct (String.eqb_spec (JS.toLowerCase (severity i)) "medium")
      as [E2|_];
    destruct (String.eqb_spec (JS.toLowerCase (severity i)) "low") as [E3|_];
    try (rewrite E1 in *; discriminate); try (rewrite E2 in *; discriminate);
    cbn [negb andb List.length]; lia.
Qed.

Section Page.
Import ResultsPage.

Lemma mapi_length {A B : Type} (f : A -> nat -> B) (l : list A) (i : nat) :
  List.length (mapi f l i) = List.length l.
Proof.
  revert i. induction l as [|v l IH]; intros i; [reflexivity|].
  cbn [mapi List.length]. now rewrite IH.
Qed.

Lemma mapi_Forall {A B : Type} (f : A -> nat -> B) (P : B -> Prop)
      (l : list A) (i : nat) :
  (forall v k, P (f v k)) -> Forall P (mapi f l i).
Proof.
  intros H. revert i. induction l as [|v l IH]; intros i; cbn [mapi];
    constructor; auto.
Qed.

Lemma expanded_passed (w : World) (l : list Issue) (i : nat) :
  (forall k, selectedCardIndex w = Some k -> k < i) ->
  filter expanded (mapi (card w) l i) = [].
Proof.
  revert i. induction l as [|v l IH]; intros i H; [reflexivity|].
  cbn [mapi filter]. unfold card at 1. cbn [expanded].
  destruct (selectedCardIndex w) as [k|] eqn:E.
  - specialize (H k eq_refl).
    destruct (Nat.eqb_spec k i) as [->|_]; [lia|].
    apply IH. intros k' Hk'. injection Hk' as <-. lia.
  - apply IH. intros k' Hk'. discriminate Hk'.
Qed.

Lemma expanded_at_most_one (w : World) (l : list Issue) (i : nat) :
  List.length (filter expanded (mapi (card w) l i)) <= 1.
Proof.
  revert i. induction l as [|v l IH]; intros i; [simpl; lia|].
  cbn [mapi filter]. unfold card at 1. cbn [expanded].
  destruct (selectedCardIndex w) as [k|] eqn:E; [|apply IH].
  destruct (Nat.eqb_spec k i) as [->|_]; [|apply IH].
  cbn [List.length]. rewrite expanded_passed; [simpl; lia|].
  intros k' Hk'. rewrite E in Hk'. injection Hk' as <-. lia.
Qed.

(** At most one card is expanded, and a card holds the annotated
    screenshot only if it is the expanded one and the screenshot has a
    URL: at most one [ImageAnnotator] is rendered. *)
Theorem cards_one_expanded (w : World) :
  List.length (filter expanded (cardsOf (view w))) <= 1 /\
  Forall (fun c => annotator c <> None ->
                   expanded c = true /\
                   imageUrl (AIEvaluationResults.state (core w)) <> None)
         (cardsOf (view w)).
Proof.
  unfold view.
  destruct (isLoading (AIEvaluationResults.state (core w)));
    [split; [simpl; lia | constructor]|].
  destruct (error (AIEvaluationResults.state (core w))) as [[|c m]|].
  2: split; [simpl; lia | constructor].
  all: destruct (results (AIEvaluationResults.state (core w))) as [r|];
    [|split; [simpl; lia | constructor]].
  all: cbn [cardsOf]; split; [apply expanded_at_most_one|].
  all: apply mapi_Forall; intros v k; unfold card; cbn [annotator expanded].
  all: destruct (imageUrl (AIEvaluationResults.state (core w)));
    [|intros N; now contradiction N].
  all: destruct (match selectedCardIndex w with
                 | Some i => Nat.eqb i k
                 | None => false
                 end); [split; [reflexivity|discriminate]|].
  all: intros N; now contradiction N.
Qed.

(** On the page of results the number shown as Issues Found is the number
    of cards, and the counts of the pie add up to no more. *)
Theorem results_consistent (w : World) (b : Button) (p n : nat)
        (pie : list nat) (cards : list Card) (chat : bool) :
  view w = Results b p n pie cards chat ->
  List.length cards = n /\ list_sum pie <= n /\ b = button w.
Proof.
  unfold view.
  destruct (isLoading (AIEvaluationResults.state (core w)));
    [discriminate|].
  destruct (error (AIEvaluationResults.state (core w))) as [[|c m]|];
    try discriminate.
  all: destruct (results (AIEvaluationResults.state (core w))) as [r|];
    [|discriminate].
  all: intros E; injection E as <- <- <- <- <- <-.
  all: split; [|split; [apply pieData_le | reflexivity]].
  all: rewrite mapi_length; apply sortedIssues_length.
Qed.

Lemma results_consistent_witness :
  List.length (cardsOf (view Scenario.loaded)) = 4.
Proof.
  destruct (view Scenario.loaded) as [| | |b p n pie cards chat] eqn:E;
    try (vm_compute in E; discriminate E).
  destruct (results_consistent Scenario.loaded b p n pie cards chat E)
    as (H & _ & _).
  cbn [cardsOf]. rewrite H. vm_compute in E. now injection E.
Defined.

End Page.

Section Report.
Import ResultsPage.

Lemma core_step_mounted (c : AIEvaluationResults.World)
      (e : AIEvaluationResults.Event) :
  e <> Unmount -> mounted c = true ->
  mounted (AIEvaluationResults.step c e) = true.
Proof.
  intros N M. destruct e as [id|id|id data blob|id err|];
    cbn [AIEvaluationResults.step].
  - now rewrite M.
  - destruct (negb (mounted c) || String.eqb id (evaluationId c))%bool;
      [exact M | reflexivity].
  - destruct (negb (existsb (String.eqb id) (pending c))); exact M.
  - destruct (negb (existsb (String.eqb id) (pending c))); exact M.
  - now contradiction N.
Qed.

Lemma core_step_unmounted (c : AIEvaluationResults.World)
      (e : AIEvaluationResults.Event) :
  (forall id, e <> Mount id) -> mounted c = false ->
  mounted (AIEvaluationResults.step c e) = false.
Proof.
  intros N M. destruct e as [id|id|id data blob|id err|];
    cbn [AIEvaluationResults.step].
  - now contradiction (N id).
  - now rewrite M.
  - destruct (negb (existsb (String.eqb id) (pending c))); exact M.
  - destruct (negb (existsb (String.eqb id) (pending c))); exact M.
  - now rewrite M.
Qed.

Lemma core_step_loaded (c : AIEvaluationResults.World)
      (e : AIEvaluationResults.Event) :
  e <> Unmount -> mounted c = true ->
  isLoading (AIEvaluationResults.state c) = false ->
  isLoading (AIEvaluationResults.state (AIEvaluationResults.step c e))
  = false.
Proof.
  intros N M L. destruct e as [id|id|id data blob|id err|];
    cbn [AIEvaluationResults.step].
  - now rewrite M.
  - rewrite M. cbn [negb orb].
    destruct (String.eqb id (evaluationId c)); exact L.
  - destruct (negb (existsb (String.eqb id) (pending c))); [exact L|].
    cbn. unfold update. now rewrite M.
  - destruct (negb (existsb (String.eqb id) (pending c))); [exact L|].
    cbn. unfold update. now rewrite M.
  - now contradiction N.
Qed.

(** What [Fulfil] and [Navigate] leave alone: the error. *)
Lemma core_step_error (c : AIEvaluationResults.World)
      (e : AIEvaluationResults.Event) :
  e <> Unmount -> (forall id err, e <> Reject id err) ->
  mounted c = true ->
  error (AIEvaluationResults.state (AIEvaluationResults.step c e))
  = error (AIEvaluationResults.state c).
Proof.
  intros N R M. destruct e as [id|id|id data blob|id err|];
    cbn [AIEvaluationResults.step].
  - now rewrite M.
  - rewrite M. cbn [negb orb].
    destruct (String.eqb id (evaluationId c)); reflexivity.
  - destruct (negb (existsb (String.eqb id) (pending c))); [reflexivity|].
    cbn. unfold update. now rewrite M.
  - now contradiction (R id err).
  - now contradiction N.
Qed.

Lemma removeAt_Forall {A : Type} (P : A -> Prop) (n : nat) (l : list A) :
  Forall P l -> Forall P (removeAt n l).
Proof.
  revert n. induction l as [|v l IH]; intros n F; destruct n;
    cbn [removeAt]; try exact F.
  - now inversion F.
  - inversion F; subst. constructor; [assumption | now apply IH].
Qed.

Lemma removeAt_filter_other {A : Type} (p : A -> bool) (n : nat)
      (l : list A) (r : A) :
  nth_error l n = Some r -> p r = false ->
  filter p (removeAt n l) = filter p l.
Proof.
  revert n. induction l as [|v l IH]; intros n E F; destruct n;
    cbn [nth_error] in E; try discriminate E.
  - injection E as ->. cbn [removeAt filter]. now rewrite F.
  - cbn [removeAt filter]. now rewrite (IH n E F).
Qed.

Lemma removeAt_filter_own {A : Type} (p : A -> bool) (n : nat)
      (l : list A) (r : A) :
  nth_error l n = Some r -> p r = true ->
  S (List.length (filter p (removeAt n l))) = List.length (filter p l).
Proof.
  revert n. induction l as [|v l IH]; intros n E F; destruct n;
    cbn [nth_error] in E; try discriminate E.
  - injection E as ->. cbn [removeAt filter]. now rewrite F.
  - cbn [removeAt filter]. destruct (p v); cbn [List.length];
      now rewrite <- (IH n E F).
Qed.

(** No call in flight is of a mount to come. *)
Lemma filter_next_mount (m : nat) (l : list (nat * string)) :
  Forall (fun r => fst r <= m) l ->
  filter (fun r => Nat.eqb (fst r) (S m)) l = [].
Proof.
  induction 1 as [|r l H F IH]; [reflexivity|].
  cbn [filter]. rewrite IH.
  destruct (Nat.eqb_spec (fst r) (S m)); [lia | reflexivity].
Qed.

Lemma length_zero_nil {A : Type} (l : list A) :
  List.length l = 0 -> l = [].
Proof. destruct l; [reflexivity | discriminate]. Qed.

Lemma showsResults_loaded (w : World) :
  showsResults w = true ->
  isLoading (AIEvaluationResults.state (core w)) = false.
Proof.
  unfold showsResults, view.
  destruct (isLoading (AIEvaluationResults.state (core w)));
    [discriminate | reflexivity].
Qed.

(** Every event keeps [inFlight]. *)
Lemma step_in_flight (w : World) (e : Event) :
  inFlight w -> inFlight (step w e).
Proof.
  intros I. pose proof I as (A & B & C).
  assert (K : forall c : AIEvaluationResults.World,
             mounted c = mounted (core w) ->
             (mounted (core w) = true ->
              isLoading (AIEvaluationResults.state (core w)) = false ->
              isLoading (AIEvaluationResults.state c) = false) ->
             inFlight (withCore c w)).
  { intros c Mc Lc. unfold inFlight, ownRequests, withCore.
    cbn [reportRequests core isGeneratingReport mounts]. rewrite Mc.
    split; [exact A|]. split; [exact B|]. intros M.
    destruct (C M) as [C1 C2]. split; [exact C1|]. intros G.
    destruct (C2 G) as [C3 C4]. split; [exact C3 | now apply Lc]. }
  assert (Sm : forall e' : AIEvaluationResults.Event,
             e' <> Unmount -> (forall id, e' <> Mount id) ->
             mounted (AIEvaluationResults.step (core w) e')
             = mounted (core w)).
  { intros e' N1 N2. destruct (mounted (core w)) eqn:M.
    - now apply core_step_mounted.
    - now apply core_step_unmounted. }
  destruct e as [e| |n outcome|index|]; cbn [step].
  - destruct e as [id|id|id data blob|id err|].
    + case_eq (mounted (core w)); intros M; [exact I|].
      unfold inFlight, ownRequests.
      cbn [reportRequests isGeneratingReport mounts core].
      rewrite (filter_next_mount _ _ A). cbn [List.length].
      split; [|split; [lia|]].
      * eapply Forall_impl; [|exact A]. cbn beta. intros r H. lia.
      * intros _. split; [intros X; now contradiction X | discriminate].
    + apply K; [apply Sm; discriminate|].
      intros M L. apply core_step_loaded; [discriminate | assumption..].
    + apply K; [apply Sm; discriminate|].
      intros M L. apply core_step_loaded; [discriminate | assumption..].
    + apply K; [apply Sm; discriminate|].
      intros M L. apply core_step_loaded; [discriminate | assumption..].
    + unfold inFlight, ownRequests, withCore.
      cbn [reportRequests isGeneratingReport mounts core].
      split; [exact A|]. split; [exact B|].
      cbn [AIEvaluationResults.step].
      case_eq (mounted (core w)); intros M; cbn [mounted]; rewrite ?M;
        discriminate.
  - destruct (mounted (core w) && showsResults w
              && negb (disabled (button w)))%bool eqn:G; [|exact I].
    apply andb_prop in G. destruct G as [G D].
    apply andb_prop in G. destruct G as [M V].
    unfold button in D. cbn [disabled] in D.
    destruct (isGeneratingReport w) eqn:Gn; [discriminate D|].
    destruct (C M) as [C1 _].
    assert (R : ownRequests w = []).
    { destruct (ownRequests w) as [|r rs] eqn:R; [reflexivity|].
      assert (N : r :: rs <> []) by discriminate.
      specialize (C1 N). discriminate C1. }
    unfold ownRequests in R.
    unfold inFlight, ownRequests, handleGenerateReport, updateCore, withCore.
    cbn [reportRequests isGeneratingReport mounts core mounted
         AIEvaluationResults.state].
    rewrite filter_app, R. cbn [filter fst app].
    rewrite Nat.eqb_refl. cbn [List.length].
    split; [|split; [lia|]].
    + apply Forall_app. split; [exact A|]. constructor; [|constructor].
      cbn [fst]. lia.
    + intros _. split; [reflexivity|]. intros _. split; [discriminate|].
      unfold update. cbn [mounted AIEvaluationResults.state]. rewrite M.
      cbn [isLoading setError]. now apply showsResults_loaded.
  - case_eq (nth_error (reportRequests w) n); [|intros _; exact I].
    intros [mount id] E.
    case_eq (mounted (core w) && Nat.eqb mount (mounts w))%bool; intros G.
    + apply andb_prop in G. destruct G as [M Q].
      pose proof (removeAt_filter_own
                    (fun r => Nat.eqb (fst r) (mounts w)) n _ _ E Q) as L.
      unfold ownRequests in B.
      assert (Z : filter (fun r => Nat.eqb (fst r) (mounts w))
                         (removeAt n (reportRequests w)) = []).
      { apply length_zero_nil. lia. }
      unfold inFlight, ownRequests, reportSettled, withRequests.
      destruct outcome as [u|err]; unfold updateCore, withCore;
        cbn [reportRequests isGeneratingReport mounts core mounted];
        rewrite Z; cbn [List.length].
      all: split; [now apply removeAt_Forall|]; split; [lia|].
      all: intros _; split; [intros X; now contradiction X | discriminate].
    + unfold inFlight, ownRequests, withRequests.
      cbn [reportRequests isGeneratingReport mounts core].
      split; [now apply removeAt_Forall|].
      case_eq (Nat.eqb mount (mounts w)); intros Q.
      * rewrite Q, andb_true_r in G.
        pose proof (removeAt_filter_own
                      (fun r => Nat.eqb (fst r) (mounts w)) n _ _ E Q) as L.
        unfold ownRequests in B. split; [lia|].
        intros M. rewrite M in G. discriminate G.
      * rewrite (removeAt_filter_other
                   (fun r => Nat.eqb (fst r) (mounts w)) n _ _ E Q).
        split; [exact B | exact C].
  - destruct (mounted (core w)
              && (index <? List.length (cardsOf (view w)))%nat)%bool;
      exact I.
  - destruct (mounted (core w) && showsResults w)%bool; exact I.
Qed.

Lemma run_in_flight (es : list Event) : inFlight (run es).
Proof.
  unfold run.
  assert (I : inFlight initialWorld).
  { unfold inFlight, ownRequests. cbn. split; [constructor|].
    split; [lia | discriminate]. }
  revert I. generalize initialWorld.
  induction es as [|e es IH]; intros w I; [exact I|].
  cbn [fold_left]. apply IH. now apply step_in_flight.
Qed.

(** Whatever happens, each mount of the component has at most one
    call of [generateReportAI] in flight: the button is disabled while the
    one there is has not settled.  The mounted component has one exactly
    when it is generating, and then it is past its spinner.  No call is
    aborted: one that the component made before it was unmounted is still
    in flight when the component, mounted again, makes another, so that
    two are in flight at once. *)
Theorem report_in_flight (es : list Event) :
  List.length (ownRequests (run es)) <= 1 /\
  (mounted (core (run es)) = true ->
   (ownRequests (run es) <> [] <-> isGeneratingReport (run es) = true)) /\
  (mounted (core (run es)) = true -> isGeneratingReport (run es) = true ->
   view (run es) <> Spinner) /\
  reportRequests (run Scenario.remounted) = [(1, "eval-A"); (2, "eval-A")] /\
  ownRequests (run Scenario.remounted) = [(2, "eval-A")].
Proof.
  destruct (run_in_flight es) as (A & B & C).
  split; [exact B|]. split; [|split; [|split; reflexivity]].
  - intros M. destruct (C M) as [C1 C2]. split; [exact C1|].
    intros G. now destruct (C2 G).
  - intros M G. destruct (C M) as [_ C2]. destruct (C2 G) as [_ L].
    unfold view. rewrite L.
    destruct (error (AIEvaluationResults.state (core (run es))))
      as [[|c m]|]; try discriminate;
      destruct (results (AIEvaluationResults.state (core (run es))));
      discriminate.
Qed.

Lemma step_generated (w : World) (e : Event) :
  e <> Load Unmount ->
  mounted (core w) = true -> reportGenerated w = true ->
  mounted (core (step w e)) = true /\
  reportGenerated (step w e) = true /\
  sent (step w e) = sent w.
Proof.
  intros N M G.
  destruct e as [e| |n outcome|index|]; cbn [step].
  - destruct e as [id|id|id data blob|id err|].
    + rewrite M. now repeat split.
    + cbn -[AIEvaluationResults.step].
      rewrite core_step_mounted by (discriminate || assumption).
      now repeat split.
    + cbn -[AIEvaluationResults.step].
      rewrite core_step_mounted by (discriminate || assumption).
      now repeat split.
    + cbn -[AIEvaluationResults.step].
      rewrite core_step_mounted by (discriminate || assumption).
      now repeat split.
    + now contradiction N.
  - unfold button. cbn [disabled]. rewrite G, orb_true_r, andb_false_r.
    now repeat split.
  - destruct (nth_error (reportRequests w) n) as [[mount id]|];
      [|now repeat split].
    destruct (mounted (core w) && Nat.eqb mount (mounts w))%bool;
      [|unfold withRequests; cbn; now repeat split].
    unfold reportSettled, withRequests.
    destruct outcome as [u|err]; unfold updateCore, withCore; cbn;
      now repeat split.
  - destruct (mounted (core w)
              && (index <? List.length (cardsOf (view w)))%nat)%bool;
      now repeat split.
  - destruct (mounted (core w) && showsResults w)%bool; now repeat split.
Qed.

(** Once a report has been generated, the component, until it is
    unmounted, calls [generateReportAI] no more, whatever happens, a change
    of the evaluation shown included: the button stays disabled. *)
Theorem report_generated_once (es : list Event) (w : World) :
  mounted (core w) = true -> reportGenerated w = true ->
  ~ In (Load Unmount) es ->
  reportGenerated (fold_left step es w) = true /\
  disabled (button (fold_left step es w)) = true /\
  sent (fold_left step es w) = sent w.
Proof.
  revert w. induction es as [|e es IH]; intros w M G N.
  - cbn [fold_left]. split; [exact G|]. split; [|reflexivity].
    unfold button. cbn [disabled]. rewrite G. apply orb_true_r.
  - cbn [fold_left].
    assert (Ne : e <> Load Unmount) by (intros ->; apply N; now left).
    destruct (step_generated w e Ne M G) as (M' & G' & S').
    destruct (IH (step w e) M' G') as (X & Y & Z).
    + intros H. apply N. now right.
    + repeat split; try assumption. congruence.
Qed.

Lemma report_generated_once_witness :
  reportGenerated (fold_left step Scenario.thenB Scenario.generated) = true /\
  sent (fold_left step Scenario.thenB Scenario.generated) = 1.
Proof.
  destruct (report_generated_once Scenario.thenB Scenario.generated)
    as (G & _ & S); [reflexivity | reflexivity | |].
  - simpl. intuition discriminate.
  - split; [exact G | rewrite S; reflexivity].
Defined.

Lemma step_loaded (w : World) (e : Event) :
  e <> Load Unmount ->
  mounted (core w) = true ->
  isLoading (AIEvaluationResults.state (core w)) = false ->
  mounted (core (step w e)) = true /\
  isLoading (AIEvaluationResults.state (core (step w e))) = false.
Proof.
  intros N M L.
  destruct e as [e| |n outcome|index|]; cbn [step].
  - destruct e as [id|id|id data blob|id err|].
    + rewrite M. now split.
    + unfold withCore. cbn [core AIEvaluationResults.step]. rewrite M.
      cbn [negb orb].
      destruct (String.eqb id (evaluationId (core w))); now split.
    + unfold withCore. cbn [core AIEvaluationResults.step].
      destruct (negb (existsb (String.eqb id) (pending (core w))));
        [now split|].
      cbn. unfold update. now rewrite M.
    + unfold withCore. cbn [core AIEvaluationResults.step].
      destruct (negb (existsb (String.eqb id) (pending (core w))));
        [now split|].
      cbn. unfold update. now rewrite M.
    + now contradiction N.
  - destruct (mounted (core w) && showsResults w
              && negb (disabled (button w)))%bool; [|now split].
    unfold handleGenerateReport, updateCore, withCore. cbn.
    unfold update. now rewrite M.
  - destruct (nth_error (reportRequests w) n) as [[mount id]|];
      [|now split].
    destruct (mounted (core w) && Nat.eqb mount (mounts w))%bool;
      [|unfold withRequests; cbn; now split].
    unfold reportSettled, withRequests.
    destruct outcome as [u|err]; unfold updateCore, withCore; cbn;
      [now split|].
    unfold update. now rewrite M.
  - destruct (mounted (core w)
              && (index <? List.length (cardsOf (view w)))%nat)%bool;
      now split.
  - destruct (mounted (core w) && showsResults w)%bool; now split.
Qed.

(** The spinner is shown before the first load has settled, and never
    again until the component is unmounted: while another evaluation
    loads, what the component renders is what it rendered before. *)
Theorem spinner_once (es : list Event) (w : World) :
  mounted (core w) = true ->
  isLoading (AIEvaluationResults.state (core w)) = false ->
  ~ In (Load Unmount) es ->
  view (fold_left step es w) <> Spinner /\
  (forall id, view (step w (Load (Navigate id))) = view w).
Proof.
  intros M L N. split.
  - revert w M L. induction es as [|e es IH]; intros w M L.
    + cbn [fold_left]. unfold view. rewrite L.
      destruct (error (AIEvaluationResults.state (core w))) as [[|c m]|];
        try discriminate;
        destruct (results (AIEvaluationResults.state (core w)));
        discriminate.
    + cbn [fold_left].
      assert (Ne : e <> Load Unmount) by (intros ->; apply N; now left).
      destruct (step_loaded w e Ne M L) as [M' L'].
      apply IH; try assumption. intros H. apply N. now right.
  - intros id. cbn [step]. unfold withCore.
    cbn [core AIEvaluationResults.step]. rewrite M. cbn [negb orb].
    destruct (String.eqb id (evaluationId (core w))); reflexivity.
Qed.

Lemma spinner_once_witness :
  view (fold_left step Scenario.thenB Scenario.loaded) <> Spinner /\
  view (step Scenario.loaded (Load (Navigate "eval-B")))
  = view Scenario.loaded.
Proof.
  destruct (spinner_once Scenario.thenB Scenario.loaded) as [S V];
    [reflexivity | reflexivity | |].
  - simpl. intuition discriminate.
  - split; [exact S | apply V].
Defined.

(** What the page that shows a message keeps as long as it is not
    unmounted and no load is rejected: its message, the calls it has
    made, and no call of its own in flight. *)
Lemma step_failed (w : World) (e : Event) (c : ascii) (m : string) :
  e <> Load Unmount ->
  (forall id err, e <> Load (Reject id err)) ->
  mounted (core w) = true ->
  isLoading (AIEvaluationResults.state (core w)) = false ->
  error (AIEvaluationResults.state (core w)) = Some (String c m) ->
  ownRequests w = [] ->
  mounted (core (step w e)) = true /\
  isLoading (AIEvaluationResults.state (core (step w e))) = false /\
  error (AIEvaluationResults.state (core (step w e))) = Some (String c m) /\
  ownRequests (step w e) = [] /\
  sent (step w e) = sent w.
Proof.
  intros N R M L E O.
  assert (V : showsResults w = false).
  { unfold showsResults, view. now rewrite L, E. }
  destruct (step_loaded w e N M L) as [M' L'].
  split; [exact M'|]. split; [exact L'|]. clear M' L'.
  destruct e as [e| |n outcome|index|]; cbn [step].
  - assert (Ne : e <> Unmount) by (intros ->; now apply N).
    assert (Re : forall id err, e <> Reject id err)
      by (intros id err ->; now apply (R id err)).
    destruct e as [id|id|id data blob|id err|].
    + rewrite M. now repeat split.
    + unfold withCore, ownRequests.
      cbn [core reportRequests mounts sent].
      rewrite core_step_error by assumption. now repeat split.
    + unfold withCore, ownRequests.
      cbn [core reportRequests mounts sent].
      rewrite core_step_error by assumption. now repeat split.
    + now contradiction (Re id err).
    + now contradiction Ne.
  - rewrite V, andb_false_r. cbn [andb]. now repeat split.
  - case_eq (nth_error (reportRequests w) n);
      [|intros _; now repeat split].
    intros [mount id] Q.
    assert (X : Nat.eqb mount (mounts w) = false).
    { case_eq (Nat.eqb mount (mounts w)); [|reflexivity]. intros X.
      pose proof (removeAt_filter_own
                    (fun r => Nat.eqb (fst r) (mounts w)) n _ _ Q X) as Y.
      unfold ownRequests in O. rewrite O in Y. discriminate Y. }
    rewrite X, andb_false_r. unfold withRequests, ownRequests.
    cbn [core reportRequests mounts sent].
    rewrite (removeAt_filter_other
               (fun r => Nat.eqb (fst r) (mounts w)) n _ _ Q X).
    now repeat split.
  - cbn [cardsOf]. unfold showsResults in V.
    destruct (view w); try discriminate V; cbn [cardsOf List.length];
      rewrite andb_false_r; now repeat split.
  - rewrite V, andb_false_r. now repeat split.
Qed.

Lemma fold_failed (es : list Event) (w : World) (c : ascii) (m : string) :
  (forall e, In e es ->
             e <> Load Unmount /\ forall id err, e <> Load (Reject id err)) ->
  mounted (core w) = true ->
  isLoading (AIEvaluationResults.state (core w)) = false ->
  error (AIEvaluationResults.state (core w)) = Some (String c m) ->
  ownRequests w = [] ->
  view (fold_left step es w) = ErrorMessage (String c m) /\
  sent (fold_left step es w) = sent w.
Proof.
  revert w. induction es as [|e es IH]; intros w N M L E O.
  - cbn [fold_left]. unfold view. now rewrite L, E.
  - cbn [fold_left]. destruct (N e) as [N1 N2]; [now left|].
    destruct (step_failed w e c m N1 N2 M L E O) as (M' & L' & E' & O' & S').
    destruct (IH (step w e)) as [X Y]; try assumption.
    + intros e' H. apply N. now right.
    + split; [exact X | congruence].
Qed.

(** When a call of [generateReportAI] that the mounted component has
    made is rejected, the message, if it is not empty, takes the place of
    the page of results, button included, and stays there, with no further
    call made, whatever then happens, as long as the component is not
    unmounted and no load of results is rejected: clicks, other calls that
    settle, a change of the evaluation shown and its results that arrive
    do nothing about it. *)
Theorem report_failure_hides (es0 es : list Event) (n : nat) (id : string)
        (err : option string) :
  mounted (core (run es0)) = true ->
  nth_error (reportRequests (run es0)) n = Some (mounts (run es0), id) ->
  err <> Some "" ->
  (forall e, In e es ->
             e <> Load Unmount /\ forall id' err', e <> Load (Reject id' err')) ->
  view (fold_left step es (step (run es0) (ReportSettled n (inr err))))
  = ErrorMessage (match err with
                  | Some m => m
                  | None => "Failed to generate AI report"
                  end) /\
  sent (fold_left step es (step (run es0) (ReportSettled n (inr err))))
  = sent (run es0).
Proof.
  intros M Q E N.
  destruct (run_in_flight es0) as (A & B & C).
  destruct (C M) as [C1 C2].
  pose proof (removeAt_filter_own
                (fun r => Nat.eqb (fst r) (mounts (run es0))) n _ _ Q
                (Nat.eqb_refl _)) as Y.
  assert (O : ownRequests (run es0) <> []).
  { unfold ownRequests. intros Z. rewrite Z in Y. discriminate Y. }
  destruct (C2 (C1 O)) as [_ L].
  assert (Z : filter (fun r => Nat.eqb (fst r) (mounts (run es0)))
                     (removeAt n (reportRequests (run es0))) = []).
  { apply length_zero_nil. unfold ownRequests in B. lia. }
  set (w := run es0) in *.
  assert (W : mounted (core (step w (ReportSettled n (inr err)))) = true /\
              isLoading (AIEvaluationResults.state
                           (core (step w (ReportSettled n (inr err)))))
              = false /\
              error (AIEvaluationResults.state
                       (core (step w (ReportSettled n (inr err)))))
              = Some (match err with
                      | Some m => m
                      | None => "Failed to generate AI report"
                      end) /\
              ownRequests (step w (ReportSettled n (inr err))) = [] /\
              sent (step w (ReportSettled n (inr err))) = sent w).
  { cbn [step]. rewrite Q, M, Nat.eqb_refl. cbn [andb].
    unfold reportSettled, withRequests, updateCore, withCore, ownRequests.
    cbn [core mounted AIEvaluationResults.state reportRequests mounts sent].
    unfold update. cbn [mounted AIEvaluationResults.state]. rewrite M.
    cbn [isLoading error setError]. now repeat split. }
  destruct W as (M' & L' & E' & O' & S').
  destruct err as [[|c m]|].
  - now contradiction E.
  - destruct (fold_failed es _ c m N M' L' E' O') as [X Y'].
    split; [exact X | congruence].
  - destruct (fold_failed es _ _ _ N M' L' E' O') as [X Y'].
    split; [exact X | congruence].
Qed.

Lemma report_failure_hides_witness :
  view (fold_left step Scenario.thenB
          (step Scenario.generating (ReportSettled 0 (inr (Some "Not Found")))))
  = ErrorMessage "Not Found" /\
  sent (fold_left step Scenario.thenB
          (step Scenario.generating (ReportSettled 0 (inr (Some "Not Found")))))
  = 1.
Proof.
  apply (report_failure_hides Scenario.clicked Scenario.thenB 0 "eval-A"
                              (Some "Not Found")).
  - reflexivity.
  - reflexivity.
  - discriminate.
  - intros e H. simpl in H.
    destruct H as [<-|[<-|[<-|[]]]]; split; try discriminate;
      intros; discriminate.
Defined.

(** A load that is rejected is what undoes it: the rejection, with a
    message that is empty, puts the empty string in place of the message
    of the report; the page of results, which those of the evaluation A
    still fill, is back with its button enabled, and a click makes a
    second call. *)
Lemma report_failure_undone :
  showsResults (fold_left step Scenario.rejectedB Scenario.failed) = true /\
  disabled (button (fold_left step Scenario.rejectedB Scenario.failed))
  = false /\
  sent (fold_left step (Scenario.rejectedB ++ [ClickGenerate])
                  Scenario.failed) = 2.
Proof. repeat split. Qed.

End Report.

(* ================================================================== *)
(** ** The chat *)

Section Chat.
Import ChatBot.

Lemma trimEnd_empty (s : string) :
  trimEnd s = EmptyString <-> blank s = true.
Proof.
  destruct s as [|c s]; [now split|].
  cbn [trimEnd]. destruct (blank (String c s)); split;
    (reflexivity || discriminate).
Qed.

Lemma trimStart_blank (n : nat) (s : string) :
  String.length s <= n -> blank (trimStart s) = blank s.
Proof.
  revert s. induction n as [|n IH]; intros s H.
  - destruct s; [reflexivity | cbn in H; lia].
  - destruct s as [|c s1]; [reflexivity|].
    cbn [String.length] in H. cbn [trimStart].
    destruct (isWhiteSpace c) eqn:W.
    { rewrite IH by lia. cbn [blank]. now rewrite W. }
    destruct s1 as [|c1 s2]; [reflexivity|].
    cbn [String.length] in H.
    destruct (isWhiteSpace2 c c1) eqn:W2.
    { rewrite IH by lia. cbn [blank]. now rewrite W, W2. }
    destruct s2 as [|c2 s3]; [reflexivity|].
    cbn [String.length] in H.
    destruct (isWhiteSpace3 c c1 c2) eqn:W3; [|reflexivity].
    rewrite IH by lia. cbn [blank]. now rewrite W, W2, W3.
Qed.

(** [trim] gives the empty string for the strings of white space only. *)
Lemma trim_blank (s : string) :
  trim s = EmptyString <-> blank s = true.
Proof.
  unfold trim. rewrite trimEnd_empty.
  now rewrite (trimStart_blank (String.length s) s (le_n _)).
Qed.

(** White space of more than one byte is trimmed as that of one is. *)
Lemma trim_padded :
  blank spaces = true /\ trim spaces = EmptyString /\ trim padded = "why".
Proof. repeat split. Qed.

Lemma handleSubmit_blank (now : nat) (w : World) :
  blank (input (state w)) = true -> handleSubmit now w = w.
Proof.
  intros B. unfold handleSubmit. apply trim_blank in B. now rewrite B.
Qed.

Lemma handleSubmit_sends (now : nat) (w : World) :
  blank (input (state w)) = false ->
  handleSubmit now w
  = mkWorld (mkState (messages (state w)
                      ++ [mkMessage user (input (state w)) now])
                     "" true)
            (requests w ++ [input (state w)]).
Proof.
  intros B. unfold handleSubmit.
  destruct (trim (input (state w))) eqn:T; [|reflexivity].
  apply trim_blank in T. congruence.
Qed.

(** A submission of white space only does nothing.  Any other adds one
    message, of the user, whose content is the input as it was typed, white
    space included; it empties the input, and sends the input as it was
    typed. *)
Theorem handleSubmit_spec (now : nat) (w : World) :
  (blank (input (state w)) = true -> handleSubmit now w = w) /\
  (blank (input (state w)) = false ->
   handleSubmit now w
   = mkWorld (mkState (messages (state w)
                       ++ [mkMessage user (input (state w)) now])
                      "" true)
             (requests w ++ [input (state w)])).
Proof.
  split; [apply handleSubmit_blank | apply handleSubmit_sends].
Qed.






End Chat.

(* ================================================================== *)
(** ** The scale of the annotations *)

Section Scale.
Import ImageAnnotator.

(** Whatever happens, the scale is 1 and no image is loading: the ref has
    no element, so no call of [updateScale] creates an image, and no load
    sets the scale.  The annotations are drawn at the scale 1 whatever the
    width the image is rendered at. *)
Theorem scale_provenance (es : list Event) :
  scale (run es) = 1%float /\ loading (run es) = [].
Proof. apply run_idle. Qed.

End Scale.

(* ================================================================== *)
(** ** The evaluation form *)

Section Form.
Import EvaluationForm.

Lemma step_form (w : World) (e : Event) :
  selectedHeuristics (state w) = selectAll (availableHeuristics (state w)) /\
  (heuristicsPending w = true -> availableHeuristics (state w) = []) /\
  Forall (fun r => Request.heuristics (snd r) = [] \/
                   Request.heuristics (snd r)
                   = selectAll (availableHeuristics (state w)))
         (requests w) /\
  List.length (requests w) = (if isLoading (state w) then 1 else 0) ->
  selectedHeuristics (state (step w e))
  = selectAll (availableHeuristics (state (step w e))) /\
  (heuristicsPending (step w e) = true ->
   availableHeuristics (state (step w e)) = []) /\
  Forall (fun r => Request.heuristics (snd r) = [] \/
                   Request.heuristics (snd r)
                   = selectAll (availableHeuristics (state (step w e))))
         (requests (step w e)) /\
  List.length (requests (step w e))
  = (if isLoading (state (step w e)) then 1 else 0).
Proof.
  intros I. pose proof I as (S & P & R & L).
  unfold step. case_eq (location w); [intros a _; exact I | intros _].
  destruct e as [outcome|value|value|value|useAI|outcome].
  - case_eq (heuristicsPending w); intros H; [|exact I].
    specialize (P H).
    destruct outcome as [hs|u];
      cbn [state fetchHeuristics selectedHeuristics availableHeuristics
           heuristicsPending requests isLoading].
    + split; [reflexivity|]. split; [discriminate|]. split; [|exact L].
      rewrite P in R. eapply Forall_impl; [|exact R].
      intros r [E|E]; left; exact E.
    + split; [exact S|]. split; [discriminate|]. now split.
  - cbn [state selectedHeuristics availableHeuristics heuristicsPending
         requests isLoading]. exact I.
  - cbn [state selectedHeuristics availableHeuristics heuristicsPending
         requests isLoading]. exact I.
  - cbn [state selectedHeuristics availableHeuristics heuristicsPending
         requests isLoading]. exact I.
  - case_eq (isLoading (state w)); intros Ld; [exact I|].
    rewrite Ld in L. unfold handleSubmit.
    cbn [state selectedHeuristics availableHeuristics heuristicsPending
         requests isLoading].
    split; [exact S|]. split; [exact P|]. split.
    + apply Forall_app. split; [exact R|].
      constructor; [|constructor]. right. exact S.
    + rewrite length_app, L. reflexivity.
  - case_eq (requests w); [intros Q; exact I | intros [useAI r] rs Q].
    rewrite Q in R, L. cbn [List.length] in L.
    destruct (isLoading (state w)) eqn:Ld; [|discriminate L].
    assert (rs = []) as -> by (destruct rs; [reflexivity|discriminate L]).
    unfold submitSettled.
    destruct outcome as [id|err]; simpl; rewrite Q; simpl;
      (split; [exact S|]); (split; [exact P|]);
      (split; [constructor | reflexivity]).
Qed.

(** Whatever happens, the heuristics selected are all the available ones,
    none ever being deselected; a request in flight asks for all of them,
    or for none when it was sent before they had loaded; and at most one
    request is in flight, and one is exactly while [isLoading]. *)
Theorem form_requests (es : list Event) :
  selectedHeuristics (state (run es))
  = selectAll (availableHeuristics (state (run es))) /\
  Forall (fun r => Request.heuristics (snd r) = [] \/
                   Request.heuristics (snd r)
                   = selectAll (availableHeuristics (state (run es))))
         (requests (run es)) /\
  List.length (requests (run es))
  = (if isLoading (state (run es)) then 1 else 0).
Proof.
  enough (I : selectedHeuristics (state (run es))
              = selectAll (availableHeuristics (state (run es))) /\
              (heuristicsPending (run es) = true ->
               availableHeuristics (state (run es)) = []) /\
              Forall (fun r => Request.heuristics (snd r) = [] \/
                               Request.heuristics (snd r)
                               = selectAll
                                   (availableHeuristics (state (run es))))
                     (requests (run es)) /\
              List.length (requests (run es))
              = (if isLoading (state (run es)) then 1 else 0))
    by (destruct I as (S & _ & R & L); now repeat split).
  unfold run.
  assert (I : selectedHeuristics (state initialWorld)
              = selectAll (availableHeuristics (state initialWorld)) /\
              (heuristicsPending initialWorld = true ->
               availableHeuristics (state initialWorld) = []) /\
              Forall (fun r => Request.heuristics (snd r) = [] \/
                               Request.heuristics (snd r)
                               = selectAll
                                   (availableHeuristics (state initialWorld)))
                     (requests initialWorld) /\
              List.length (requests initialWorld)
              = (if isLoading (state initialWorld) then 1 else 0)).
  { split; [reflexivity|]. split; [reflexivity|].
    split; [constructor | reflexivity]. }
  revert I. generalize initialWorld.
  induction es as [|e es IH]; intros w I; [exact I|].
  cbn [fold_left]. apply IH. now apply step_form.
Qed.

End Form.
